(** * Diff highlighting of the changes app: [highlightDiff] and [timelineItem]

    A shallow embedding of [highlightDiff] (the line scanner, the
    replace-block detector and the assembly of annotations) and of the
    [timelineItem] accessors, with the properties the design document
    states about them.

    Conventions.
    - A Go [[]byte] or [string] is a [list byte]; a nil slice returned
      next to an error is [None].
    - A Go [int] is a [Z].  Every integer of [highlightDiff] is an index
      of a line or a byte offset bounded by [len(src) + 1], so no
      arithmetic wraps around; the sentinel [-1] of [lastDel] and
      [lastIns] is kept as it is.
    - [s[i]] is [nth (Z.to_nat i) s d]; the lemmas on bounds show that the
      loops only index inside the slices, where Go would panic outside. *)

From Stdlib Require Import Strings.Byte Strings.String.
From Stdlib Require Import ZArith List Lia Bool.
From Stdlib Require Import Sorting.Permutation Sorting.Sorted.
Import ListNotations.

Local Open Scope Z_scope.

(** ** Bytes *)

(** A Go [[]byte] or [string]. *)
Abbreviation bytes := (list byte).

Definition newline : byte := x0a.   (* '\n' *)
Definition plus    : byte := x2b.   (* '+'  *)
Definition minus   : byte := x2d.   (* '-'  *)
Definition at_sign : byte := x40.   (* '@'  *)
Definition nul     : byte := x00.   (* "\x00" *)
Definition dquote  : byte := x22.

Definition bytes_of (s : string) : bytes := list_byte_of_string s.

(** [len(s)] as a Go [int]. *)
Definition len {A} (s : list A) : Z := Z.of_nat (length s).

(** [s[i]], with [d] standing for the out-of-range panic. *)
Definition index {A} (d : A) (s : list A) (i : Z) : A := nth (Z.to_nat i) s d.

(** ** annotate.Annotation *)

Record Annotation := mkAnn {
  Start : Z;
  End : Z;
  Left : bytes;
  Right : bytes;
  WantInner : Z
}.

(** ** The line scanner *)

(** [bytes.Split(src, []byte("\n"))]: the pieces between the newlines; the
    result is never empty, and has one more element than [src] has
    newlines. *)
Fixpoint bytes_Split (s : bytes) : list bytes :=
  match s with
  | [] => [[]]
  | c :: s' =>
      if Byte.eqb c newline then [] :: bytes_Split s'
      else match bytes_Split s' with
           | l :: ls => (c :: l) :: ls
           | [] => [[c]]
           end
  end.

(** The first loop of [highlightDiff]:
    [lineStarts[lineIndex] = offset; offset += len(lines[lineIndex]) + 1]. *)
Fixpoint lineStartsFrom (offset : Z) (lines : list bytes) : list Z :=
  match lines with
  | [] => []
  | l :: ls => offset :: lineStartsFrom (offset + len l + 1) ls
  end.

Definition computeLineStarts (lines : list bytes) : list Z :=
  lineStartsFrom 0 lines.

(** The switch of the second loop reads the first byte of the line, and
    the zero byte for an empty line:
    [var lineFirstChar byte; if len(lines[lineIndex]) > 0 { ... }]. *)
Definition lineFirstChar (line : bytes) : byte :=
  match line with
  | [] => nul
  | c :: _ => c
  end.

(** The marker of a line, as the switch tells the lines apart: case ['+'],
    case ['-'], and the default case, in which ['@'] alone is singled
    out. *)
Inductive Marker := MarkContext | MarkDelete | MarkInsert | MarkOther.

Definition classify (line : bytes) : Marker :=
  let c := lineFirstChar line in
  if Byte.eqb c plus then MarkInsert
  else if Byte.eqb c minus then MarkDelete
  else if Byte.eqb c at_sign then MarkOther
  else MarkContext.

Definition isChange (line : bytes) : bool :=
  match classify line with
  | MarkInsert | MarkDelete => true
  | _ => false
  end.

(** ** The replace-block detector *)

Definition spanOpen (class : string) : bytes :=
  bytes_of "<span class=" ++ [dquote] ++ bytes_of class ++ [dquote] ++ bytes_of ">".

Definition spanClose : bytes := bytes_of "</span>".

(** The two background annotations of a block. *)
Definition deleteBackground (s e : Z) : Annotation :=
  mkAnn s e (spanOpen "gd input-block") spanClose 0.

Definition insertBackground (s e : Z) : Annotation :=
  mkAnn s e (spanOpen "gi input-block") spanClose 0.

(** The integers [from, from+1, ..., to-1] of [for line := from; line < to; line++]. *)
Definition upto (from to : Z) : list Z :=
  map (fun k => from + Z.of_nat k) (seq 0 (Z.to_nat (to - from))).

(** [content += "\x00" + string(lines[line][1:]) + "\n"] for the lines
    [from <= line < to]. *)
Definition blockContent (lines : list bytes) (from to : Z) : bytes :=
  flat_map (fun line => [nul] ++ tl (index [] lines line) ++ [newline]) (upto from to).

Record LoopState := mkLoop {
  lastDel : Z;
  lastIns : Z;
  anns : list Annotation
}.

(** A closed block: the values of [lastDel] and [lastIns] after the
    adjustment for a missing side, the index of the line that closed the
    block and that line's first byte. *)
Record ReplaceBlock := mkBlock {
  blockDel : Z;
  blockIns : Z;
  blockEnd : Z;
  blockCloser : byte
}.

Section Detector.

(** [highlight_diff.HighlightedDiffFunc(leftContent, rightContent,
    &sectionSegments, offsets)] of package
    github.com/shurcooL/highlight_diff: the two lists it stores in
    [sectionSegments]. *)
Variable HighlightedDiffFunc : bytes -> bytes -> Z * Z -> list Annotation * list Annotation.

Variable lines : list bytes.
Variable lineStarts : list Z.

(** What the default case appends to [anns] for a block. *)
Definition blockAnnotations (b : ReplaceBlock) : list Annotation :=
  let beginOffsetLeft := index 0 lineStarts (blockDel b) in
  let endOffsetLeft := index 0 lineStarts (blockIns b) in
  let beginOffsetRight := index 0 lineStarts (blockIns b) in
  let endOffsetRight := index 0 lineStarts (blockEnd b) in
  [deleteBackground beginOffsetLeft endOffsetLeft;
   insertBackground beginOffsetRight endOffsetRight]
  ++ (if negb (Byte.eqb at_sign (blockCloser b)) then
        let leftContent := blockContent lines (blockDel b) (blockIns b) in
        let rightContent := blockContent lines (blockIns b) (blockEnd b) in
        let sectionSegments :=
          HighlightedDiffFunc leftContent rightContent (beginOffsetLeft, beginOffsetRight) in
        fst sectionSegments ++ snd sectionSegments
      else []).

(** The block the default case closes, when [lastDel] or [lastIns] is
    set. *)
Definition closeBlock (lastDel lastIns lineIndex : Z) (c : byte) : ReplaceBlock :=
  if lastDel =? -1 then mkBlock lastIns lastIns lineIndex c
  else if lastIns =? -1 then mkBlock lastDel lineIndex lineIndex c
  else mkBlock lastDel lastIns lineIndex c.

(** One iteration of the second loop of [highlightDiff]. *)
Definition loopBody (st : LoopState) (lineIndex : Z) : LoopState :=
  let c := lineFirstChar (index [] lines lineIndex) in
  if Byte.eqb c plus then
    if lastIns st =? -1 then mkLoop (lastDel st) lineIndex (anns st) else st
  else if Byte.eqb c minus then
    if lastDel st =? -1 then mkLoop lineIndex (lastIns st) (anns st) else st
  else
    if negb (lastDel st =? -1) || negb (lastIns st =? -1) then
      mkLoop (-1) (-1)
             (anns st ++ blockAnnotations (closeBlock (lastDel st) (lastIns st) lineIndex c))
    else mkLoop (-1) (-1) (anns st).

Definition lineIndices (n : nat) : list Z := map Z.of_nat (seq 0 n).

(** The state after the iterations [lineIndex = 0 .. n-1]. *)
Definition loopUpTo (n : nat) (anns0 : list Annotation) : LoopState :=
  fold_left loopBody (lineIndices n) (mkLoop (-1) (-1) anns0).

(** The detector alone: the same loop, keeping the closed blocks instead
    of their annotations. *)
Definition detectBody (st : Z * Z * list ReplaceBlock) (lineIndex : Z)
  : Z * Z * list ReplaceBlock :=
  let '(lastDel, lastIns, blocks) := st in
  let c := lineFirstChar (index [] lines lineIndex) in
  if Byte.eqb c plus then
    if lastIns =? -1 then (lastDel, lineIndex, blocks) else st
  else if Byte.eqb c minus then
    if lastDel =? -1 then (lineIndex, lastIns, blocks) else st
  else
    if negb (lastDel =? -1) || negb (lastIns =? -1) then
      (-1, -1, blocks ++ [closeBlock lastDel lastIns lineIndex c])
    else (-1, -1, blocks).

Definition detectUpTo (n : nat) : Z * Z * list ReplaceBlock :=
  fold_left detectBody (lineIndices n) (-1, -1, []).

End Detector.

(** The blocks of a text. *)
Definition replaceBlocks (src : bytes) : list ReplaceBlock :=
  let lines := bytes_Split src in
  snd (detectUpTo lines (length lines)).

(** The annotations [highlightDiff] has collected when it reaches
    [sort.Sort(anns)], from the list [anns0] that [highlight_diff.Annotate]
    returned. *)
Definition collectAnnotations
    (HighlightedDiffFunc : bytes -> bytes -> Z * Z -> list Annotation * list Annotation)
    (src : bytes) (anns0 : list Annotation) : list Annotation :=
  let lines := bytes_Split src in
  let lineStarts := computeLineStarts lines in
  anns (loopUpTo HighlightedDiffFunc lines lineStarts (length lines) anns0).

(** ** [highlightDiff] *)




Section HighlightDiff.

(** Go's [error] values. *)
Variable error : Type.

(** [highlight_diff.Annotate(src)] of package
    github.com/shurcooL/highlight_diff. *)
Variable highlight_diff_Annotate : bytes -> list Annotation * option error.

Variable HighlightedDiffFunc : bytes -> bytes -> Z * Z -> list Annotation * list Annotation.

(** [sort.Sort(anns)], with the order of [annotate.Annotations] of package
    github.com/sourcegraph/annotate: the slice afterwards. *)
Variable sort_Sort : list Annotation -> list Annotation.

(** [annotate.Annotate(src, anns, template.HTMLEscape)] of package
    github.com/sourcegraph/annotate. *)
Variable annotate_Annotate : bytes -> list Annotation -> option bytes * option error.


End HighlightDiff.

(** ** display.go: [timelineItem] *)

Module Display.

(** The fields of [issues.Comment] and [issues.Event] that the accessors
    read: [ID uint64] and [CreatedAt time.Time] (an instant, as a
    number). *)
Record Comment := mkComment { Comment_ID : N; Comment_CreatedAt : Z }.
Record Event := mkEvent { Event_ID : N; Event_CreatedAt : Z }.

(** A value of type [interface{}], by its dynamic type: [issues.Comment],
    [issues.Event], or any other type, of which [%T] prints the name
    ([<nil>] for the nil interface). *)
Inductive any :=
| AnyComment (c : Comment)
| AnyEvent (e : Event)
| AnyOther (typeName : string).

Record timelineItem := mkItem { TimelineItem : any }.

(** A call returns a value or panics with an error of the given
    message. *)
Inductive outcome (A : Type) :=
| Returns (v : A)
| Panics (msg : string).
Arguments Returns {A} v.
Arguments Panics {A} msg.

(** [fmt.Errorf("unknown item type %T", v)]. *)
Definition unknownItemType (v : any) : string :=
  match v with
  | AnyComment _ => "unknown item type issues.Comment"
  | AnyEvent _ => "unknown item type issues.Event"
  | AnyOther typeName => "unknown item type " ++ typeName
  end%string.

Definition TemplateName (i : timelineItem) : outcome string :=
  match TimelineItem i with
  | AnyComment _ => Returns "comment"%string
  | AnyEvent _ => Returns "event"%string
  | v => Panics (unknownItemType v)
  end.

Definition CreatedAt (i : timelineItem) : outcome Z :=
  match TimelineItem i with
  | AnyComment i => Returns (Comment_CreatedAt i)
  | AnyEvent i => Returns (Event_CreatedAt i)
  | i => Panics (unknownItemType i)
  end.

Definition ID (i : timelineItem) : outcome N :=
  match TimelineItem i with
  | AnyComment i => Returns (Comment_ID i)
  | AnyEvent i => Returns (Event_ID i)
  | i => Panics (unknownItemType i)
  end.

End Display.

(** ** Slices of the text

    The vocabulary in which the properties of the line scanner are
    stated. *)

(** A line followed by its newline, as it lies in the text. *)
Definition withNewline (l : bytes) : bytes := l ++ [newline].

(** [s[a:b]] of a Go slice. *)
Definition slice {A} (s : list A) (a b : Z) : list A :=
  firstn (Z.to_nat (b - a)) (skipn (Z.to_nat a) s).

(** ** Runs of changed lines

    The vocabulary in which the properties of the detector are stated. *)

Definition lineAt (lines : list bytes) (k : Z) : bytes := index [] lines k.

(** [x] is the first line of marker [mk] among the lines [m <= k < n], or
    [-1] when there is none. *)
Definition firstOf (lines : list bytes) (mk : Marker) (m n x : Z) : Prop :=
  (x = -1 /\ forall k, m <= k < n -> classify (lineAt lines k) <> mk)
  \/ (m <= x < n /\ classify (lineAt lines x) = mk
      /\ forall k, m <= k < x -> classify (lineAt lines k) <> mk).

(** The lines [m <= k < n] are the run of [+] and [-] lines that ends just
    before line [n]: all of them are changes, and the line before line [m],
    if any, is not. *)
Definition openRun (lines : list bytes) (m n : Z) : Prop :=
  0 <= m <= n
  /\ (forall k, m <= k < n -> isChange (lineAt lines k) = true)
  /\ (m = 0 \/ isChange (lineAt lines (m - 1)) = false).

(** [d] and [i] are what [lastDel] and [lastIns] hold before line [n]. *)
Definition runState (lines : list bytes) (m n d i : Z) : Prop :=
  openRun lines m n
  /\ firstOf lines MarkDelete m n d
  /\ firstOf lines MarkInsert m n i.

(** [b] is the block of a run that a line before line [n] closed. *)
Definition closedAt (lines : list bytes) (n : Z) (b : ReplaceBlock) : Prop :=
  exists m d i e,
    runState lines m e d i
    /\ m < e < n
    /\ isChange (lineAt lines e) = false
    /\ b = closeBlock d i e (lineFirstChar (lineAt lines e)).

(** No [-] line directly follows a [+] line: in every run of changes the
    deletions come first, as a diff tool prints them. *)
Fixpoint deletesFirst (lines : list bytes) : bool :=
  match lines with
  | [] => true
  | l1 :: rest =>
      match rest with
      | [] => true
      | l2 :: _ =>
          negb (match classify l1, classify l2 with
                | MarkInsert, MarkDelete => true
                | _, _ => false
                end)
          && deletesFirst rest
      end
  end.

(** ** Sample inputs *)

(** A differ that reports no intraline difference. *)
Definition noIntraline : bytes -> bytes -> Z * Z -> list Annotation * list Annotation :=
  fun _ _ _ => ([], []).

(** A differ that hands back the two strings it was called with, as the
    markup of one annotation. *)
Definition echoContents : bytes -> bytes -> Z * Z -> list Annotation * list Annotation :=
  fun leftContent rightContent offsets =>
    ([mkAnn (fst offsets) (snd offsets) leftContent rightContent 0], []).


(** The text of the given lines, each followed by a newline. *)
Definition textOf (ls : list string) : bytes :=
  flat_map (fun l => bytes_of l ++ [newline]) ls.

(** ** xxx.go: [fileDiff.Title] *)

(** [strings.HasPrefix(s, prefix)], with the rest of [s] after the
    prefix. *)
Fixpoint afterPrefix (s prefix : string) {struct prefix} : option string :=
  match prefix with
  | EmptyString => Some s
  | String c prefix' =>
      match s with
      | EmptyString => None
      | String d s' => if Ascii.eqb c d then afterPrefix s' prefix' else None
      end
  end.

(** [strings.TrimPrefix(s, prefix)]: [s] without the leading [prefix], or
    [s] itself when it does not begin with [prefix]. *)
Definition TrimPrefix (s prefix : string) : string :=
  match afterPrefix s prefix with
  | Some rest => rest
  | None => s
  end.

(** The fields of [diff.FileDiff] that [Title] reads. *)
Record FileDiff := mkFileDiff {
  OrigName : string;
  NewName : string
}.

(** The error [fmt.Errorf("unexpected *diff.FileDiff: %+v", f)]. *)
Inductive TitleError :=
| UnexpectedFileDiff (f : FileDiff).

Definition devNull : string := "/dev/null".

Section FileDiffTitle.

(** [html.EscapeString] of package golang.org/x/net/html. *)
Variable EscapeString : string -> string.

(** [fileDiff.Title]: the title and the error; the title is [""] next to
    an error. *)
Definition Title (f : FileDiff) : string * option TitleError :=
  let old := TrimPrefix (OrigName f) "a/" in
  let new := TrimPrefix (NewName f) "b/" in
  if negb (String.eqb old devNull) && negb (String.eqb new devNull)
     && String.eqb old new then                                  (* Modified. *)
    (EscapeString new, None)
  else if negb (String.eqb old devNull) && negb (String.eqb new devNull)
          && negb (String.eqb old new) then                      (* Renamed. *)
    (EscapeString (old ++ " -> " ++ new)%string, None)
  else if String.eqb old devNull && negb (String.eqb new devNull) then  (* Added. *)
    (EscapeString new, None)
  else if negb (String.eqb old devNull) && String.eqb new devNull then  (* Removed. *)
    (("<strikethrough>" ++ EscapeString old ++ "</strikethrough>")%string, None)
  else
    (EmptyString, Some (UnexpectedFileDiff f)).

End FileDiffTitle.

(** ** display.go: [byCreatedAtID] *)

Module ByCreatedAtID.

Import Display.

(** [byCreatedAtID] is [[]timelineItem]. *)
Abbreviation byCreatedAtID := (list timelineItem).

Definition bind {A B} (o : outcome A) (f : A -> outcome B) : outcome B :=
  match o with
  | Returns v => f v
  | Panics msg => Panics msg
  end.

(** [s[i]]; outside the slice Go panics with a runtime error (whose
    message also names the index and the length). *)
Definition item (s : byCreatedAtID) (i : Z) : outcome timelineItem :=
  if (0 <=? i) && (i <? len s)
  then Returns (index (mkItem (AnyOther EmptyString)) s i)
  else Panics "runtime error: index out of range".

Definition Len (s : byCreatedAtID) : Z := len s.

(** [Less]: [time.Time.Equal] and [time.Time.Before] compare the
    instants; the operands are evaluated from left to right. *)
Definition Less (s : byCreatedAtID) (i j : Z) : outcome bool :=
  bind (item s i) (fun si =>
  bind (CreatedAt si) (fun ci =>
  bind (item s j) (fun sj =>
  bind (CreatedAt sj) (fun cj =>
    if ci =? cj then
      (* If CreatedAt time is equal, fall back to ID as a tiebreaker. *)
      bind (ID si) (fun idi =>
      bind (ID sj) (fun idj =>
        Returns (idi <? idj)%N))
    else
      Returns (ci <? cj))))).

(** [s[i] = v], inside the slice. *)
Fixpoint assign (s : byCreatedAtID) (i : nat) (v : timelineItem) : byCreatedAtID :=
  match s, i with
  | [], _ => []
  | _ :: s', O => v :: s'
  | x :: s', S i' => x :: assign s' i' v
  end.

(** [Swap]: [s[i], s[j] = s[j], s[i]], as the slice afterwards. *)
Definition Swap (s : byCreatedAtID) (i j : Z) : outcome byCreatedAtID :=
  bind (item s j) (fun sj =>
  bind (item s i) (fun si =>
    Returns (assign (assign s (Z.to_nat i) sj) (Z.to_nat j) si))).

(** Whether the value of an item is an [issues.Comment] or an
    [issues.Event]. *)
Definition known (it : timelineItem) : bool :=
  match TimelineItem it with
  | AnyOther _ => false
  | _ => true
  end.

End ByCreatedAtID.

(** ** The handlers: [commitIndex] and [stripPrefix] *)

(** The field of [change.Commit] that [commitIndex] reads. *)
Record Commit := mkCommit {
  SHA : string
}.

(** The loop of [commitIndex], from index [i] on. *)
Fixpoint commitIndexFrom (i : Z) (cs : list Commit) (commitID : string) : Z :=
  match cs with
  | [] => -1
  | c :: cs' =>
      if String.eqb (SHA c) commitID then i
      else commitIndexFrom (i + 1) cs' commitID
  end.

(** [commitIndex] returns the index of commit with SHA equal to
    [commitID], or [-1] if not found. *)
Definition commitIndex (cs : list Commit) (commitID : string) : Z :=
  commitIndexFrom 0 cs commitID.

(** [url.URL] and [http.Request]: the path, and the fields that
    [stripPrefix] copies as they are. *)
Record url_URL (U : Type) := mkURL {
  Path : string;
  otherURLFields : U
}.
Arguments mkURL {U} _ _.
Arguments Path {U} _.
Arguments otherURLFields {U} _.

Record http_Request (U Q : Type) := mkRequest {
  URL : url_URL U;
  otherRequestFields : Q
}.
Arguments mkRequest {U Q} _ _.
Arguments URL {U Q} _.
Arguments otherRequestFields {U Q} _.

(** [stripPrefix] returns request [r] with prefix of length [prefixLen]
    stripped from [r.URL.Path]; the slice expression
    [r.URL.Path[prefixLen:]] panics outside [0 <= prefixLen <= len]. *)
Definition stripPrefix {U Q} (r : http_Request U Q) (prefixLen : Z)
  : Display.outcome (http_Request U Q) :=
  let path := Path (URL r) in
  if (0 <=? prefixLen) && (prefixLen <=? Z.of_nat (String.length path)) then
    let path' := substring (Z.to_nat prefixLen)
                           (String.length path - Z.to_nat prefixLen) path in
    Display.Returns
      (mkRequest
         (mkURL (if String.eqb path' EmptyString then "/"%string else path')
                (otherURLFields (URL r)))
         (otherRequestFields r))
  else Display.Panics "runtime error: slice bounds out of range".

(** * Properties *)

(** ** The line scanner *)

Lemma bytes_Split_not_nil (s : bytes) : bytes_Split s <> [].
Proof.
  destruct s as [|c s]; simpl; [discriminate|].
  destruct (Byte.eqb c newline); [discriminate|].
  destruct (bytes_Split s); discriminate.
Qed.

Lemma bytes_Split_length (s : bytes) : (0 < length (bytes_Split s))%nat.
Proof.
  pose proof (bytes_Split_not_nil s) as H.
  destruct (bytes_Split s); [congruence | simpl; lia].
Qed.

(** Joining the lines with newlines gives the text back. *)
Lemma bytes_Split_join (s : bytes) :
  flat_map withNewline (bytes_Split s) = s ++ [newline].
Proof.
  induction s as [|c s IH]; simpl; [reflexivity|].
  destruct (Byte.eqb c newline) eqn:E.
  - apply Byte.byte_dec_bl in E. subst c. simpl. now rewrite IH.
  - destruct (bytes_Split s) as [|l ls] eqn:S.
    + now destruct (bytes_Split_not_nil s).
    + simpl in *. unfold withNewline in *. simpl. now rewrite IH.
Qed.

Lemma lineStartsFrom_length (lines : list bytes) :
  forall o, length (lineStartsFrom o lines) = length lines.
Proof. induction lines as [|l ls IH]; intro o; simpl; [reflexivity | now rewrite IH]. Qed.

(** A line starts where the lines before it, with their newlines, end. *)
Lemma lineStartsFrom_nth (lines : list bytes) :
  forall o i, (i < length lines)%nat ->
    nth i (lineStartsFrom o lines) 0 = o + len (flat_map withNewline (firstn i lines)).
Proof.
  induction lines as [|l ls IH]; intros o i Hi; simpl in Hi; [lia|].
  destruct i as [|i]; simpl.
  - unfold len. simpl. lia.
  - rewrite IH by lia. unfold len, withNewline.
    repeat rewrite length_app. simpl. lia.
Qed.

Lemma firstn_S_nth {A} (d : A) (l : list A) :
  forall i, (i < length l)%nat -> firstn (S i) l = firstn i l ++ [nth i l d].
Proof.
  induction l as [|x l IH]; intros i Hi; simpl in Hi; [lia|].
  destruct i as [|i]; simpl; [reflexivity|].
  now rewrite <- IH by lia.
Qed.

Lemma lineStart_succ (lines : list bytes) (i : nat) :
  (S i < length lines)%nat ->
  nth (S i) (computeLineStarts lines) 0
  = nth i (computeLineStarts lines) 0 + len (nth i lines []) + 1.
Proof.
  intro Hi. unfold computeLineStarts.
  rewrite !lineStartsFrom_nth by lia.
  rewrite (firstn_S_nth [] lines i) by lia.
  rewrite flat_map_app. simpl. unfold len, withNewline.
  repeat rewrite length_app. simpl. lia.
Qed.

(** The text is the lines before line [i], line [i], and the rest. *)
Lemma text_around_line (src : bytes) (i : nat) :
  let lines := bytes_Split src in
  (i < length lines)%nat ->
  src ++ [newline]
  = flat_map withNewline (firstn i lines)
    ++ withNewline (nth i lines []) ++ flat_map withNewline (skipn (S i) lines).
Proof.
  intros lines Hi.
  rewrite <- bytes_Split_join. fold lines.
  rewrite <- (firstn_skipn i lines) at 1.
  rewrite flat_map_app. f_equal.
  destruct (skipn i lines) as [|x r] eqn:E.
  - apply (f_equal (@length _)) in E. rewrite length_skipn in E. simpl in E. lia.
  - assert (Hx : nth i lines [] = x).
    { rewrite <- (firstn_skipn i lines) at 1. rewrite app_nth2; rewrite length_firstn.
      - replace (i - Nat.min i (length lines))%nat with 0%nat by lia. now rewrite E.
      - lia. }
    assert (Hr : skipn (S i) lines = r).
    { replace (S i) with (1 + i)%nat by lia. rewrite <- skipn_skipn. now rewrite E. }
    now rewrite Hx, Hr.
Qed.

Lemma slice_app_mid {A} (P M X : list A) :
  slice (P ++ M ++ X) (len P) (len P + len M) = M.
Proof.
  unfold slice, len.
  replace (Z.of_nat (length P) + Z.of_nat (length M) - Z.of_nat (length P))
    with (Z.of_nat (length M)) by lia.
  rewrite !Nat2Z.id.
  rewrite skipn_app, skipn_all, Nat.sub_diag. simpl.
  rewrite firstn_app, firstn_all, Nat.sub_diag. simpl. apply app_nil_r.
Qed.

Lemma text_line_decomp (src : bytes) (i : nat) :
  let lines := bytes_Split src in
  (i < length lines)%nat ->
  exists X,
    src = flat_map withNewline (firstn i lines) ++ nth i lines [] ++ X
    /\ ((S i < length lines)%nat -> exists X', X = newline :: X')
    /\ (S i = length lines -> X = []).
Proof.
  intros lines Hi.
  pose proof (text_around_line src i Hi) as H. fold lines in H.
  destruct (skipn (S i) lines) as [|x r] eqn:E.
  - simpl in H. exists []. split; [|split].
    + unfold withNewline in H. rewrite app_nil_r in H. rewrite app_assoc in H.
      apply app_inj_tail in H. rewrite app_nil_r. tauto.
    + intro Hlt. apply (f_equal (@length _)) in E. rewrite length_skipn in E.
      simpl in E. lia.
    + reflexivity.
  - assert (Hne : flat_map withNewline (x :: r) <> []).
    { simpl. unfold withNewline. destruct x; discriminate. }
    destruct (exists_last Hne) as (R & y & HR). rewrite HR in H.
    exists (newline :: R). split; [|split].
    + unfold withNewline in H.
      replace (flat_map (fun l => l ++ [newline]) (firstn i lines)
               ++ (nth i lines [] ++ [newline]) ++ R ++ [y])
        with ((flat_map (fun l => l ++ [newline]) (firstn i lines)
               ++ nth i lines [] ++ newline :: R) ++ [y]) in H.
      * apply app_inj_tail in H. tauto.
      * rewrite <- !app_assoc. simpl. reflexivity.
    + intros _. now exists R.
    + intro Hl. apply (f_equal (@length _)) in E. rewrite length_skipn in E.
      simpl in E. lia.
Qed.

Lemma firstn_plus {A} (l : list A) :
  forall a c, firstn (a + c) l = firstn a l ++ firstn c (skipn a l).
Proof.
  induction l as [|x l IH]; intros a c.
  - now rewrite !firstn_nil, skipn_nil, firstn_nil.
  - destruct a as [|a]; simpl; [reflexivity|]. now rewrite IH.
Qed.

Lemma lineStart_index (lines : list bytes) (i : Z) :
  0 <= i < len lines ->
  index 0 (computeLineStarts lines) i
  = len (flat_map withNewline (firstn (Z.to_nat i) lines)).
Proof.
  intros Hi. unfold index, computeLineStarts, len in *.
  rewrite lineStartsFrom_nth by lia. reflexivity.
Qed.

(** The bytes between the starts of two lines are the lines between them,
    each with its newline. *)
Lemma lines_span (src : bytes) (a b : Z) :
  let lines := bytes_Split src in
  let lineStarts := computeLineStarts lines in
  0 <= a <= b -> b < len lines ->
  slice src (index 0 lineStarts a) (index 0 lineStarts b)
  = flat_map withNewline (slice lines a b)
  /\ index 0 lineStarts b
     = index 0 lineStarts a + len (flat_map withNewline (slice lines a b)).
Proof.
  intros lines lineStarts Hab Hb. unfold lineStarts.
  rewrite !lineStart_index by (fold lines; lia).
  destruct (text_line_decomp src (Z.to_nat b)) as (X & HX & _).
  { fold lines. unfold len in Hb. lia. }
  fold lines in HX.
  replace (Z.to_nat b) with (Z.to_nat a + Z.to_nat (b - a))%nat in * by lia.
  rewrite firstn_plus in *. rewrite flat_map_app in *.
  fold (slice lines a b) in *.
  set (P := flat_map withNewline (firstn (Z.to_nat a) lines)) in *.
  set (M := flat_map withNewline (slice lines a b)) in *.
  split.
  - rewrite HX at 1. rewrite <- app_assoc.
    replace (len (P ++ M)) with (len P + len M)
      by (unfold len; rewrite length_app; lia).
    apply slice_app_mid.
  - unfold len. rewrite length_app. lia.
Qed.

Lemma len_app {A} (l1 l2 : list A) : len (l1 ++ l2) = len l1 + len l2.
Proof. unfold len. rewrite length_app. lia. Qed.

(** C7. The line ranges partition the text: line 0 starts at offset 0,
    line [i+1] starts at the start of line [i] plus the length of line [i]
    plus one, the bytes of the text in the range of line [i] are line [i],
    the byte between two ranges is the newline, and the range of the last
    line ends where the text ends. *)
Theorem line_ranges_partition (src : bytes) :
  let lines := bytes_Split src in
  let lineStarts := computeLineStarts lines in
  let start i := index 0 lineStarts i in
  let line i := index [] lines i in
  length lineStarts = length lines
  /\ 0 < len lines
  /\ start 0 = 0
  /\ (forall i, 0 <= i -> i + 1 < len lines ->
        start (i + 1) = start i + len (line i) + 1)
  /\ (forall i, 0 <= i < len lines ->
        slice src (start i) (start i + len (line i)) = line i)
  /\ (forall i, 0 <= i -> i + 1 < len lines ->
        slice src (start i + len (line i)) (start i + len (line i) + 1) = [newline])
  /\ start (len lines - 1) + len (line (len lines - 1)) = len src.
Proof.
  intros lines lineStarts start line.
  assert (Hn : 0 < len lines).
  { unfold len. pose proof (bytes_Split_length src). fold lines in H. lia. }
  repeat split.
  - apply lineStartsFrom_length.
  - exact Hn.
  - unfold start, lineStarts. rewrite lineStart_index by lia. reflexivity.
  - intros i Hi Hlt. unfold start, line, index, lineStarts.
    replace (Z.to_nat (i + 1)) with (S (Z.to_nat i)) by lia.
    apply lineStart_succ. unfold len in Hlt. lia.
  - intros i Hi. unfold start, lineStarts. rewrite lineStart_index by lia.
    destruct (text_line_decomp src (Z.to_nat i)) as (X & HX & _).
    { fold lines. unfold len in Hi. lia. }
    fold lines in HX. unfold line, index. rewrite HX at 1.
    apply slice_app_mid.
  - intros i Hi Hlt. unfold start, lineStarts. rewrite lineStart_index by lia.
    destruct (text_line_decomp src (Z.to_nat i)) as (X & HX & Hsep & _).
    { fold lines. unfold len in Hlt. lia. }
    fold lines in HX, Hsep. destruct Hsep as (X' & ->).
    { unfold len in Hlt. lia. }
    unfold line, index. rewrite HX at 1.
    rewrite <- len_app. rewrite app_assoc.
    change (newline :: X') with ([newline] ++ X').
    change 1 with (len [newline]). apply slice_app_mid.
  - unfold start, lineStarts. rewrite lineStart_index by lia.
    destruct (text_line_decomp src (Z.to_nat (len lines - 1))) as (X & HX & _ & Hlast).
    { fold lines. unfold len in *. lia. }
    fold lines in HX, Hlast. rewrite Hlast in HX by (unfold len in *; lia).
    rewrite app_nil_r in HX. unfold line, index.
    rewrite <- len_app. now rewrite <- HX.
Qed.

(** The starts of the lines increase. *)
Lemma start_le (src : bytes) (j k : Z) :
  let lines := bytes_Split src in
  let start := index 0 (computeLineStarts lines) in
  0 <= j <= k -> k < len lines -> start j <= start k.
Proof.
  intros lines start Hjk Hk.
  destruct (lines_span src j k Hjk Hk) as (_ & H). fold lines in H. fold start in H.
  rewrite H. unfold len. lia.
Qed.

Lemma start_next (src : bytes) (j k : Z) :
  let lines := bytes_Split src in
  let start := index 0 (computeLineStarts lines) in
  0 <= j < k -> k < len lines -> start j + len (lineAt lines j) + 1 <= start k.
Proof.
  intros lines start Hjk Hk.
  assert (Hsucc : start (j + 1) = start j + len (lineAt lines j) + 1).
  { unfold start, lineAt, index.
    replace (Z.to_nat (j + 1)) with (S (Z.to_nat j)) by lia.
    apply lineStart_succ. unfold len in Hk. lia. }
  rewrite <- Hsucc. apply (start_le src); fold lines; lia.
Qed.

(** ** The replace-block detector *)

Lemma classify_plus (l : bytes) :
  Byte.eqb (lineFirstChar l) plus = true ->
  classify l = MarkInsert /\ isChange l = true.
Proof. intro H. unfold isChange, classify. now rewrite H. Qed.

Lemma classify_minus (l : bytes) :
  Byte.eqb (lineFirstChar l) plus = false ->
  Byte.eqb (lineFirstChar l) minus = true ->
  classify l = MarkDelete /\ isChange l = true.
Proof. intros H1 H2. unfold isChange, classify. now rewrite H1, H2. Qed.

Lemma classify_default (l : bytes) :
  Byte.eqb (lineFirstChar l) plus = false ->
  Byte.eqb (lineFirstChar l) minus = false ->
  isChange l = false /\ classify l <> MarkInsert /\ classify l <> MarkDelete.
Proof.
  intros H1 H2. unfold isChange, classify. rewrite H1, H2.
  destruct (Byte.eqb (lineFirstChar l) at_sign); repeat split; discriminate.
Qed.

Lemma isChange_cases (l : bytes) :
  isChange l = true -> classify l = MarkDelete \/ classify l = MarkInsert.
Proof. unfold isChange. destruct (classify l); auto; discriminate. Qed.

Lemma isChange_nonempty (l : bytes) :
  isChange l = true -> exists c rest, l = c :: rest /\ (c = plus \/ c = minus).
Proof.
  unfold isChange, classify. destruct l as [|c rest]; simpl.
  - discriminate.
  - intros H. exists c, rest. split; [reflexivity|].
    destruct (Byte.eqb c plus) eqn:E1.
    + left. now apply Byte.byte_dec_bl.
    + destruct (Byte.eqb c minus) eqn:E2.
      * right. now apply Byte.byte_dec_bl.
      * destruct (Byte.eqb c at_sign); discriminate.
Qed.

Lemma lineIndices_S (n : nat) : lineIndices (S n) = lineIndices n ++ [Z.of_nat n].
Proof. unfold lineIndices. rewrite seq_S, map_app. reflexivity. Qed.

Section DetectorFacts.

Variable HighlightedDiffFunc : bytes -> bytes -> Z * Z -> list Annotation * list Annotation.
Variable lines : list bytes.
Variable lineStarts : list Z.

Let blockAnns := blockAnnotations HighlightedDiffFunc lines lineStarts.

Lemma loopUpTo_S (n : nat) (anns0 : list Annotation) :
  loopUpTo HighlightedDiffFunc lines lineStarts (S n) anns0
  = loopBody HighlightedDiffFunc lines lineStarts
      (loopUpTo HighlightedDiffFunc lines lineStarts n anns0) (Z.of_nat n).
Proof. unfold loopUpTo. rewrite lineIndices_S, fold_left_app. reflexivity. Qed.

Lemma detectUpTo_S (n : nat) :
  detectUpTo lines (S n) = detectBody lines (detectUpTo lines n) (Z.of_nat n).
Proof. unfold detectUpTo. rewrite lineIndices_S, fold_left_app. reflexivity. Qed.

(** The loop of [highlightDiff] and the detector go through the same
    values of [lastDel] and [lastIns], and the loop has appended the
    annotations of the blocks closed so far. *)
Lemma loop_detect (n : nat) (anns0 : list Annotation) :
  loopUpTo HighlightedDiffFunc lines lineStarts n anns0
  = mkLoop (fst (fst (detectUpTo lines n))) (snd (fst (detectUpTo lines n)))
           (anns0 ++ flat_map blockAnns (snd (detectUpTo lines n))).
Proof.
  induction n as [|n IH].
  - unfold loopUpTo, detectUpTo. simpl. now rewrite app_nil_r.
  - rewrite loopUpTo_S, detectUpTo_S, IH.
    destruct (detectUpTo lines n) as [[d i] blocks]. simpl.
    unfold loopBody, detectBody. simpl.
    destruct (Byte.eqb _ plus).
    + destruct (i =? -1); reflexivity.
    + destruct (Byte.eqb _ minus).
      * destruct (d =? -1); reflexivity.
      * destruct (negb (d =? -1) || negb (i =? -1)); simpl; [|reflexivity].
        rewrite flat_map_app. simpl. rewrite app_nil_r, app_assoc. reflexivity.
Qed.

Lemma detect_blocks_grow (n : nat) :
  exists more, snd (detectUpTo lines (S n)) = snd (detectUpTo lines n) ++ more.
Proof.
  rewrite detectUpTo_S. destruct (detectUpTo lines n) as [[d i] blocks].
  unfold detectBody.
  destruct (Byte.eqb _ plus); [destruct (i =? -1); exists []; simpl; now rewrite app_nil_r|].
  destruct (Byte.eqb _ minus); [destruct (d =? -1); exists []; simpl; now rewrite app_nil_r|].
  destruct (negb (d =? -1) || negb (i =? -1)); simpl.
  - eexists. reflexivity.
  - exists []. now rewrite app_nil_r.
Qed.

Lemma detect_blocks_mono (n n' : nat) (b : ReplaceBlock) :
  (n <= n')%nat -> In b (snd (detectUpTo lines n)) -> In b (snd (detectUpTo lines n')).
Proof.
  induction 1 as [|n' Hle IH]; [auto|].
  intro Hb. destruct (detect_blocks_grow n') as (more & ->).
  apply in_or_app. left. auto.
Qed.

End DetectorFacts.

Lemma blockEnd_closeBlock (d i e : Z) (c : byte) : blockEnd (closeBlock d i e c) = e.
Proof. unfold closeBlock. destruct (d =? -1), (i =? -1); reflexivity. Qed.

Lemma blockCloser_closeBlock (d i e : Z) (c : byte) : blockCloser (closeBlock d i e c) = c.
Proof. unfold closeBlock. destruct (d =? -1), (i =? -1); reflexivity. Qed.

Section RunFacts.

Variable lines : list bytes.

Lemma firstOf_extend_other (mk : Marker) (m n x : Z) :
  firstOf lines mk m n x ->
  classify (lineAt lines n) <> mk ->
  firstOf lines mk m (n + 1) x.
Proof.
  intros [[Hx Hnone] | (Hr & Hc & Hbefore)] Hn.
  - left. split; [assumption|]. intros k Hk.
    destruct (Z.eq_dec k n) as [->|Hne]; [assumption | apply Hnone; lia].
  - right. repeat split; try assumption; lia.
Qed.

Lemma firstOf_extend_same (mk : Marker) (m n x : Z) :
  firstOf lines mk m n x ->
  classify (lineAt lines n) = mk ->
  0 <= m <= n ->
  firstOf lines mk m (n + 1) (if x =? -1 then n else x).
Proof.
  intros [[Hx Hnone] | (Hr & Hc & Hbefore)] Hn Hm.
  - subst x. simpl. right. repeat split; try assumption; lia.
  - destruct (x =? -1) eqn:E; [lia|].
    right. repeat split; try assumption; lia.
Qed.

Lemma firstOf_unique (mk : Marker) (m n x y : Z) :
  firstOf lines mk m n x -> firstOf lines mk m n y -> 0 <= m -> x = y.
Proof.
  intros [[Hx Hnone] | (Hr & Hc & Hbefore)] [[Hy Hnone'] | (Hr' & Hc' & Hbefore')] Hm.
  - congruence.
  - now destruct (Hnone y Hr').
  - now destruct (Hnone' x Hr).
  - destruct (Z.lt_trichotomy x y) as [Hlt | [Heq | Hgt]]; [|assumption|].
    + destruct (Hbefore' x); [lia | assumption].
    + destruct (Hbefore y); [lia | assumption].
Qed.

Lemma openRun_unique (m m' n : Z) :
  openRun lines m n -> openRun lines m' n -> m = m'.
Proof.
  intros (Hb & Hall & Hmax) (Hb' & Hall' & Hmax').
  destruct (Z.lt_trichotomy m m') as [Hlt | [Heq | Hgt]]; [|assumption|].
  - destruct Hmax' as [H0 | Hf]; [lia|].
    rewrite Hall in Hf by lia. discriminate.
  - destruct Hmax as [H0 | Hf]; [lia|].
    rewrite Hall' in Hf by lia. discriminate.
Qed.

Lemma runState_unique (m m' n d d' i i' : Z) :
  runState lines m n d i -> runState lines m' n d' i' ->
  m = m' /\ d = d' /\ i = i'.
Proof.
  intros (Ho & Hd & Hi) (Ho' & Hd' & Hi').
  assert (m = m') by eauto using openRun_unique. subst m'.
  destruct Ho as (Hb & _).
  repeat split; try (eapply firstOf_unique; eauto; lia).
Qed.

(** A run that is not empty has set [lastDel] or [lastIns]. *)
Lemma runState_open (m n d i : Z) :
  runState lines m n d i -> m < n -> d <> -1 \/ i <> -1.
Proof.
  intros ((Hb & Hall & _) & Hd & Hi) Hlt.
  destruct (isChange_cases _ (Hall m ltac:(lia))) as [Hc | Hc].
  - left. destruct Hd as [[_ Hnone] | (Hr & _)]; [|lia].
    now destruct (Hnone m ltac:(lia)).
  - right. destruct Hi as [[_ Hnone] | (Hr & _)]; [|lia].
    now destruct (Hnone m ltac:(lia)).
Qed.

Lemma runState_set (m n d i : Z) :
  runState lines m n d i -> d <> -1 \/ i <> -1 -> m < n.
Proof.
  intros (_ & Hd & Hi) [H | H].
  - destruct Hd as [[Hx _] | (Hr & _)]; [congruence | lia].
  - destruct Hi as [[Hx _] | (Hr & _)]; [congruence | lia].
Qed.

Lemma closedAt_mono (n n' : Z) (b : ReplaceBlock) :
  closedAt lines n b -> n <= n' -> closedAt lines n' b.
Proof.
  intros (m & d & i & e & Hr & Hlt & Hc & Hb) Hle.
  exists m, d, i, e. split; [assumption|]. split; [lia|]. split; assumption.
Qed.

(** The invariant of the detector's loop. *)
Lemma detect_inv (n : nat) :
  exists m,
    runState lines m (Z.of_nat n)
             (fst (fst (detectUpTo lines n))) (snd (fst (detectUpTo lines n)))
    /\ forall b, In b (snd (detectUpTo lines n)) -> closedAt lines (Z.of_nat n) b.
Proof.
  induction n as [|n (m & Hrun & Hblocks)].
  - exists 0. unfold detectUpTo. simpl. split; [|tauto].
    repeat split; try lia; try (left; split; [reflexivity | intros; lia]).
  - rewrite detectUpTo_S. rewrite Nat2Z.inj_succ. unfold Z.succ.
    destruct (detectUpTo lines n) as [[d i] blocks]. simpl in Hrun, Hblocks.
    set (N := Z.of_nat n) in *.
    assert (HN : 0 <= N) by (unfold N; lia).
    unfold detectBody. fold (lineAt lines N).
    destruct Hrun as ((Hb & Hall & Hmax) & Hd & Hi).
    assert (Hold : forall b, In b blocks -> closedAt lines (N + 1) b).
    { intros b Hb'. eapply closedAt_mono; [eauto | lia]. }
    destruct (Byte.eqb (lineFirstChar (lineAt lines N)) plus) eqn:Ep.
    + destruct (classify_plus _ Ep) as (Hc & Hch).
      exists m.
      assert (Hopen : openRun lines m (N + 1)).
      { repeat split; try lia; [|assumption]. intros k Hk.
        destruct (Z.eq_dec k N) as [->|]; [assumption | apply Hall; lia]. }
      assert (Hd' : firstOf lines MarkDelete m (N + 1) d).
      { apply firstOf_extend_other; [assumption | congruence]. }
      pose proof (firstOf_extend_same _ _ _ _ Hi Hc Hb) as Hi'.
      destruct (i =? -1); simpl; (split; [split; [assumption | split; assumption] | assumption]).
    + destruct (Byte.eqb (lineFirstChar (lineAt lines N)) minus) eqn:Em.
      * destruct (classify_minus _ Ep Em) as (Hc & Hch).
        exists m.
        assert (Hopen : openRun lines m (N + 1)).
        { repeat split; try lia; [|assumption]. intros k Hk.
          destruct (Z.eq_dec k N) as [->|]; [assumption | apply Hall; lia]. }
        assert (Hi' : firstOf lines MarkInsert m (N + 1) i).
        { apply firstOf_extend_other; [assumption | congruence]. }
        pose proof (firstOf_extend_same _ _ _ _ Hd Hc Hb) as Hd'.
        destruct (d =? -1); simpl; (split; [split; [assumption | split; assumption] | assumption]).
      * destruct (classify_default _ Ep Em) as (Hch & _).
        exists (N + 1).
        assert (Hnew : runState lines (N + 1) (N + 1) (-1) (-1)).
        { split; [|split; left; (split; [reflexivity | intros; lia])].
          split; [lia|]. split; [intros; lia|].
          right. now replace (N + 1 - 1) with N by lia. }
        destruct (negb (d =? -1) || negb (i =? -1)) eqn:Eopen; simpl;
          (split; [assumption|]); [|assumption].
        intros b Hin. apply in_app_or in Hin. destruct Hin as [Hin | [<- | []]]; [auto|].
        assert (Hset : d <> -1 \/ i <> -1).
        { apply orb_true_iff in Eopen. destruct Eopen as [E | E];
            apply negb_true_iff, Z.eqb_neq in E; auto. }
        assert (Hrun : runState lines m N d i)
          by (split; [split; [exact Hb | split; assumption] | split; assumption]).
        exists m, d, i, N.
        split; [assumption|]. split; [|split; [assumption | reflexivity]].
        pose proof (runState_set _ _ _ _ Hrun Hset). lia.
Qed.

Lemma isChange_false_tests (l : bytes) :
  isChange l = false ->
  Byte.eqb (lineFirstChar l) plus = false /\ Byte.eqb (lineFirstChar l) minus = false.
Proof.
  unfold isChange, classify.
  destruct (Byte.eqb (lineFirstChar l) plus); [discriminate|].
  destruct (Byte.eqb (lineFirstChar l) minus); [discriminate|]. auto.
Qed.

(** A line that is no change resets [lastDel] and [lastIns]. *)
Lemma detect_reset (n : nat) :
  isChange (lineAt lines (Z.of_nat n)) = false ->
  fst (detectUpTo lines (S n)) = (-1, -1).
Proof.
  intro Hc. rewrite detectUpTo_S.
  destruct (detectUpTo lines n) as [[d i] blocks].
  unfold detectBody. fold (lineAt lines (Z.of_nat n)).
  destruct (isChange_false_tests _ Hc) as (-> & ->).
  destruct (negb (d =? -1) || negb (i =? -1)); reflexivity.
Qed.

(** Every run that a line closes has its block among the blocks. *)
Lemma detect_complete (n : nat) (m e d i : Z) :
  runState lines m e d i -> m < e ->
  isChange (lineAt lines e) = false ->
  e < Z.of_nat n ->
  In (closeBlock d i e (lineFirstChar (lineAt lines e))) (snd (detectUpTo lines n)).
Proof.
  intros Hrun Hlt Hc Hn.
  assert (He : 0 <= e) by (destruct Hrun as ((? & _) & _); lia).
  apply (detect_blocks_mono lines (S (Z.to_nat e)) n); [lia|].
  destruct (detect_inv (Z.to_nat e)) as (m' & Hrun' & _).
  rewrite Z2Nat.id in Hrun' by assumption.
  rewrite detectUpTo_S. rewrite Z2Nat.id by assumption.
  destruct (detectUpTo lines (Z.to_nat e)) as [[d' i'] blocks]. simpl in Hrun'.
  destruct (runState_unique _ _ _ _ _ _ _ Hrun Hrun') as (_ & <- & <-).
  unfold detectBody. fold (lineAt lines e).
  destruct (isChange_false_tests _ Hc) as (-> & ->).
  destruct (runState_open _ _ _ _ Hrun Hlt) as [H | H];
    apply Z.eqb_neq in H; rewrite H; simpl;
    try rewrite orb_true_r; simpl; apply in_or_app; right; now left.
Qed.

(** Where a closed block begins and ends. *)
Lemma closedAt_shape (n : Z) (b : ReplaceBlock) :
  closedAt lines n b ->
  exists m,
    openRun lines m (blockEnd b)
    /\ m < blockEnd b < n
    /\ m <= blockDel b <= blockEnd b
    /\ m <= blockIns b <= blockEnd b
    /\ isChange (lineAt lines (blockEnd b)) = false
    /\ blockCloser b = lineFirstChar (lineAt lines (blockEnd b)).
Proof.
  intros (m & d & i & e & Hrun & Hlt & Hc & ->).
  exists m. rewrite blockEnd_closeBlock, blockCloser_closeBlock.
  pose proof (runState_open _ _ _ _ Hrun (proj1 Hlt)) as Hset.
  destruct Hrun as (Hopen & Hd & Hi).
  split; [assumption|]. split; [assumption|].
  pose proof (proj1 Hopen) as Hm.
  unfold closeBlock.
  destruct Hd as [[-> _] | (Hdr & _)]; destruct Hi as [[-> _] | (Hir & _)]; simpl.
  - destruct Hset; congruence.
  - repeat split; try assumption; lia.
  - destruct (Z.eqb_spec d (-1)); [lia|]. simpl. repeat split; try assumption; lia.
  - destruct (Z.eqb_spec d (-1)); [lia|]. destruct (Z.eqb_spec i (-1)); [lia|].
    simpl. repeat split; try assumption; lia.
Qed.

End RunFacts.

(** ** Runs in which the deletions come first *)

Lemma lineAt_nil (k : Z) : lineAt [] k = [].
Proof. unfold lineAt, index. now destruct (Z.to_nat k). Qed.

Lemma lineAt_cons_succ (l : bytes) (ls : list bytes) (k : Z) :
  0 <= k -> lineAt (l :: ls) (k + 1) = lineAt ls k.
Proof.
  intro Hk. unfold lineAt, index.
  now replace (Z.to_nat (k + 1)) with (S (Z.to_nat k)) by lia.
Qed.

Lemma deletesFirst_spec (lines : list bytes) :
  deletesFirst lines = true ->
  forall k, 0 <= k ->
    classify (lineAt lines k) = MarkInsert ->
    classify (lineAt lines (k + 1)) <> MarkDelete.
Proof.
  induction lines as [|l rest IH]; intros Hwf k Hk Hins.
  - rewrite lineAt_nil. discriminate.
  - rewrite lineAt_cons_succ by assumption.
    destruct rest as [|l2 r].
    + rewrite lineAt_nil. discriminate.
    + simpl in Hwf. apply andb_true_iff in Hwf. destruct Hwf as (Hpair & Hrest).
      destruct (Z.eq_dec k 0) as [->|Hne].
      * change (lineAt (l :: l2 :: r) 0) with l in Hins.
        change (lineAt (l2 :: r) 0) with l2.
        rewrite Hins in Hpair. now destruct (classify l2).
      * replace k with ((k - 1) + 1) in * by lia.
        rewrite lineAt_cons_succ in Hins by lia.
        apply IH; [assumption | lia | assumption].
Qed.

Section GroupedRuns.

Variable lines : list bytes.
Hypothesis grouped : deletesFirst lines = true.

Lemma inserts_after (m n i : Z) :
  openRun lines m n -> m <= i < n ->
  classify (lineAt lines i) = MarkInsert ->
  forall k, i <= k < n -> classify (lineAt lines k) = MarkInsert.
Proof.
  intros (Hb & Hall & _) Hi Hins.
  assert (H : forall j : nat, i + Z.of_nat j < n ->
              classify (lineAt lines (i + Z.of_nat j)) = MarkInsert).
  { induction j as [|j IH]; intro Hj.
    - now replace (i + Z.of_nat 0) with i by lia.
    - replace (i + Z.of_nat (S j)) with (i + Z.of_nat j + 1) in * by lia.
      destruct (isChange_cases _ (Hall (i + Z.of_nat j + 1) ltac:(lia))) as [Hd|]; [|assumption].
      destruct (deletesFirst_spec lines grouped (i + Z.of_nat j) ltac:(lia)
                  (IH ltac:(lia)) Hd). }
  intros k Hk. replace k with (i + Z.of_nat (Z.to_nat (k - i))) by lia.
  apply H. lia.
Qed.

(** With the deletions first, a closed block is the deleted lines of its
    run followed by the inserted lines of its run. *)
Lemma grouped_block (n : Z) (b : ReplaceBlock) :
  closedAt lines n b ->
  0 <= blockDel b <= blockIns b
  /\ blockIns b <= blockEnd b < n
  /\ blockDel b < blockEnd b
  /\ (forall k, blockDel b <= k < blockIns b -> classify (lineAt lines k) = MarkDelete)
  /\ (forall k, blockIns b <= k < blockEnd b -> classify (lineAt lines k) = MarkInsert)
  /\ isChange (lineAt lines (blockEnd b)) = false
  /\ (blockDel b = 0 \/ isChange (lineAt lines (blockDel b - 1)) = false).
Proof.
  intros (m & d & i & e & Hrun & Hlt & Hc & ->).
  destruct Hrun as (Hopen & Hd & Hi).
  pose proof Hopen as (Hb & Hall & Hmax).
  assert (Hdel : forall k, m <= k < e ->
                   classify (lineAt lines k) <> MarkInsert ->
                   classify (lineAt lines k) = MarkDelete).
  { intros k Hk Hn. destruct (isChange_cases _ (Hall k Hk)); congruence. }
  unfold closeBlock.
  destruct Hi as [[-> Hnoins] | (Hir & Hins & Hbefore)].
  - (* no inserted line: the run is deletions only *)
    destruct Hd as [[-> Hnodel] | (Hdr & Hdel' & Hfirst)].
    + destruct (Hnodel m ltac:(lia)). apply Hdel; [lia | apply Hnoins; lia].
    + assert (d = m).
      { destruct (Z.eq_dec d m); [assumption|].
        destruct (Hfirst m ltac:(lia)). apply Hdel; [lia | apply Hnoins; lia]. }
      subst d. destruct (Z.eqb_spec m (-1)); [lia|]. simpl.
      repeat split; try lia; try assumption.
      intros k Hk. apply Hdel; [lia | apply Hnoins; lia].
  - pose proof (inserts_after m e i Hopen Hir Hins) as Hafter.
    destruct Hd as [[-> Hnodel] | (Hdr & Hdel' & Hfirst)].
    + (* no deleted line: the run is insertions only *)
      assert (i = m).
      { destruct (Z.eq_dec i m); [assumption|].
        destruct (Hnodel m ltac:(lia)). apply Hdel; [lia | apply Hbefore; lia]. }
      subst i. simpl.
      repeat split; try lia; try assumption.
    + assert (d < i).
      { destruct (Z_lt_ge_dec d i); [assumption|].
        rewrite Hafter in Hdel' by lia. discriminate. }
      assert (d = m).
      { destruct (Z.eq_dec d m); [assumption|].
        destruct (Hfirst m ltac:(lia)). apply Hdel; [lia | apply Hbefore; lia]. }
      subst d. destruct (Z.eqb_spec m (-1)); [lia|].
      destruct (Z.eqb_spec i (-1)); [lia|]. simpl.
      repeat split; try lia; try assumption.
      intros k Hk. apply Hdel; [lia | apply Hbefore; lia].
Qed.

End GroupedRuns.

(** ** Blocks and their annotations *)

Lemma upto_slice {A} (d : A) (l : list A) (a b : Z) :
  0 <= a <= b -> b <= len l ->
  map (index d l) (upto a b) = slice l a b.
Proof.
  intros Hab Hb. unfold upto, slice, len in *.
  apply (nth_ext _ _ d d).
  - rewrite !length_map, length_seq, length_firstn, length_skipn. lia.
  - intros k Hk. rewrite !length_map, length_seq in Hk.
    rewrite nth_firstn. destruct (Nat.ltb_spec k (Z.to_nat (b - a))); [|lia].
    rewrite nth_skipn, map_map.
    rewrite (nth_indep _ d (index d l (a + Z.of_nat 0)))
      by (rewrite length_map, length_seq; lia).
    rewrite (map_nth (fun x => index d l (a + Z.of_nat x))).
    rewrite seq_nth by lia. unfold index. f_equal. lia.
Qed.

Lemma flat_map_map {A B C} (g : A -> B) (f : B -> list C) (l : list A) :
  flat_map f (map g l) = flat_map (fun x => f (g x)) l.
Proof. induction l as [|x l IH]; simpl; [reflexivity | now rewrite IH]. Qed.

(** The content handed to the differ, line by line. *)
Lemma blockContent_slice (lines : list bytes) (a b : Z) :
  0 <= a <= b -> b <= len lines ->
  blockContent lines a b
  = flat_map (fun l => [nul] ++ tl l ++ [newline]) (slice lines a b).
Proof.
  intros Hab Hb. unfold blockContent.
  rewrite <- (upto_slice [] lines a b Hab Hb). now rewrite flat_map_map.
Qed.

Lemma blockContent_empty (lines : list bytes) (a b : Z) :
  b <= a -> blockContent lines a b = [].
Proof.
  intro H. unfold blockContent, upto.
  now replace (Z.to_nat (b - a)) with 0%nat by lia.
Qed.

Lemma collect_blocks
    (differ : bytes -> bytes -> Z * Z -> list Annotation * list Annotation)
    (src : bytes) (anns0 : list Annotation) :
  collectAnnotations differ src anns0
  = anns0 ++ flat_map (blockAnnotations differ (bytes_Split src)
                         (computeLineStarts (bytes_Split src)))
                      (replaceBlocks src).
Proof. unfold collectAnnotations, replaceBlocks. now rewrite loop_detect. Qed.

Lemma replaceBlocks_closed (src : bytes) (b : ReplaceBlock) :
  In b (replaceBlocks src) ->
  closedAt (bytes_Split src) (len (bytes_Split src)) b.
Proof.
  intro Hb. destruct (detect_inv (bytes_Split src) (length (bytes_Split src)))
    as (m & _ & Hblocks).
  now apply Hblocks.
Qed.

(** The two annotations a block begins with: where they start and end,
    and their markup. *)
Lemma block_backgrounds_fields
    (differ : bytes -> bytes -> Z * Z -> list Annotation * list Annotation)
    (src : bytes) (anns0 : list Annotation) (b : ReplaceBlock) :
  let lines := bytes_Split src in
  let lineStarts := computeLineStarts lines in
  let start := index 0 lineStarts in
  In b (replaceBlocks src) ->
  exists del ins more,
    blockAnnotations differ lines lineStarts b = del :: ins :: more
    /\ In del (collectAnnotations differ src anns0)
    /\ In ins (collectAnnotations differ src anns0)
    /\ (Start del = start (blockDel b) /\ End del = start (blockIns b)
        /\ Left del = spanOpen "gd input-block" /\ Right del = spanClose
        /\ WantInner del = 0)
    /\ (Start ins = start (blockIns b) /\ End ins = start (blockEnd b)
        /\ Left ins = spanOpen "gi input-block" /\ Right ins = spanClose
        /\ WantInner ins = 0).
Proof.
  intros lines lineStarts start Hb.
  exists (deleteBackground (start (blockDel b)) (start (blockIns b))),
         (insertBackground (start (blockIns b)) (start (blockEnd b))).
  eexists. split; [reflexivity|].
  assert (Hin : forall a,
            In a [deleteBackground (start (blockDel b)) (start (blockIns b));
                  insertBackground (start (blockIns b)) (start (blockEnd b))] ->
            In a (collectAnnotations differ src anns0)).
  { intros a Ha. rewrite collect_blocks. apply in_or_app. right.
    apply in_flat_map. exists b. split; [assumption|].
    unfold blockAnnotations. apply in_or_app. now left. }
  split; [apply Hin; now left|]. split; [apply Hin; right; now left|].
  repeat split.
Qed.

(** C1 (as amended). In a text whose runs of changes have their deletions
    first, the annotations collected are those of the blocks; every block
    is a maximal run that the next line, which is no change, closes: its
    lines from [blockDel] up to [blockIns] are the deleted lines, its
    lines from [blockIns] up to [blockEnd] are the inserted lines, and the
    line before it is no change; its delete background starts at the
    first deleted line and ends at the first inserted line, spanning the
    bytes of the deleted lines, and its insert background goes from there
    to the closing line, spanning the bytes of the inserted lines; and
    every maximal run that a line closes has its block. *)
Theorem grouped_blocks_cover_runs
    (differ : bytes -> bytes -> Z * Z -> list Annotation * list Annotation)
    (src : bytes) (anns0 : list Annotation) :
  let lines := bytes_Split src in
  let lineStarts := computeLineStarts lines in
  let start := index 0 lineStarts in
  deletesFirst lines = true ->
  collectAnnotations differ src anns0
  = anns0 ++ flat_map (blockAnnotations differ lines lineStarts) (replaceBlocks src)
  /\ (forall b, In b (replaceBlocks src) ->
       (0 <= blockDel b <= blockIns b
        /\ blockIns b <= blockEnd b < len lines
        /\ blockDel b < blockEnd b)
       /\ (forall k, blockDel b <= k < blockIns b ->
             classify (lineAt lines k) = MarkDelete)
       /\ (forall k, blockIns b <= k < blockEnd b ->
             classify (lineAt lines k) = MarkInsert)
       /\ isChange (lineAt lines (blockEnd b)) = false
       /\ (blockDel b = 0 \/ isChange (lineAt lines (blockDel b - 1)) = false)
       /\ (exists del ins more,
             blockAnnotations differ lines lineStarts b = del :: ins :: more
             /\ In del (collectAnnotations differ src anns0)
             /\ In ins (collectAnnotations differ src anns0)
             /\ (Start del = start (blockDel b) /\ End del = start (blockIns b)
                 /\ Left del = spanOpen "gd input-block" /\ Right del = spanClose
                 /\ WantInner del = 0)
             /\ (Start ins = start (blockIns b) /\ End ins = start (blockEnd b)
                 /\ Left ins = spanOpen "gi input-block" /\ Right ins = spanClose
                 /\ WantInner ins = 0)
             /\ slice src (Start del) (End del)
                = flat_map withNewline (slice lines (blockDel b) (blockIns b))
             /\ slice src (Start ins) (End ins)
                = flat_map withNewline (slice lines (blockIns b) (blockEnd b))))
  /\ (forall m e, openRun lines m e -> m < e < len lines ->
        isChange (lineAt lines e) = false ->
        exists b, In b (replaceBlocks src) /\ blockDel b = m /\ blockEnd b = e).
Proof.
  intros lines lineStarts start Hgrouped.
  split; [apply collect_blocks|]. split.
  - intros b Hb.
    destruct (block_backgrounds_fields differ src anns0 b Hb)
      as (del & ins & more & Hanns & Hd & Hi & Fd & Fi).
    apply replaceBlocks_closed in Hb. fold lines in Hb.
    destruct (grouped_block lines Hgrouped _ _ Hb)
      as (H1 & H2 & H3 & Hdel & Hins & Hend & Hmax).
    split; [lia|]. split; [assumption|]. split; [assumption|].
    split; [assumption|]. split; [assumption|].
    exists del, ins, more.
    split; [assumption|]. split; [assumption|]. split; [assumption|].
    split; [assumption|]. split; [assumption|].
    destruct Fd as (-> & -> & _). destruct Fi as (-> & -> & _).
    split; apply (lines_span src); fold lines; lia.
  - intros m e Hopen Hme Hclose.
    pose proof (proj1 Hopen) as Hm.
    destruct (detect_inv lines (Z.to_nat e)) as (m' & Hrun & _).
    rewrite Z2Nat.id in Hrun by lia.
    assert (m' = m) by (destruct Hrun as (Hopen' & _); eauto using openRun_unique).
    subst m'.
    pose proof (detect_complete lines (length lines) _ _ _ _ Hrun (proj1 Hme) Hclose
                  ltac:(unfold len in Hme; lia)) as Hin.
    fold (replaceBlocks src) in Hin.
    eexists. split; [exact Hin|]. split; [|apply blockEnd_closeBlock].
    apply replaceBlocks_closed in Hin. fold lines in Hin.
    destruct (grouped_block lines Hgrouped _ _ Hin)
      as (H1 & H2 & H3 & Hdel & Hins & Hend & Hmax).
    rewrite blockEnd_closeBlock in *.
    apply (openRun_unique lines _ _ e); [|assumption].
    split; [lia|]. split; [|assumption].
    intros k Hk. unfold isChange.
    destruct (Z_lt_ge_dec k (blockIns (closeBlock (fst (fst (detectUpTo lines (Z.to_nat e))))
                                        (snd (fst (detectUpTo lines (Z.to_nat e)))) e
                                        (lineFirstChar (lineAt lines e))))).
    + now rewrite Hdel by lia.
    + now rewrite Hins by lia.
Qed.

Lemma grouped_blocks_cover_runs_witness :
  let src := textOf [" x"; "-a"; "+b"; " y"]%string in
  deletesFirst (bytes_Split src) = true
  /\ replaceBlocks src = [mkBlock 1 2 3 x20]
  /\ collectAnnotations noIntraline src []
     = [deleteBackground 3 6; insertBackground 6 9].
Proof.
  split; [reflexivity|]. split; [reflexivity|].
  pose proof (grouped_blocks_cover_runs noIntraline
                (textOf [" x"; "-a"; "+b"; " y"]%string) [] eq_refl) as (H & _ & _).
  rewrite H. reflexivity.
Defined.

(** C1 (as stated) fails: in the text [-a], [+b], [-c], [ d] the detector
    makes one block of the three changed lines; its insert background spans
    the bytes from 3 to 9, and line 2, the deletion [-c], lies in them. *)
Lemma insert_background_over_deletion :
  let src := textOf ["-a"; "+b"; "-c"; " d"]%string in
  let lines := bytes_Split src in
  let lineStarts := computeLineStarts lines in
  replaceBlocks src = [mkBlock 0 1 3 x20]
  /\ collectAnnotations noIntraline src []
     = [deleteBackground 0 3; insertBackground 3 9]
  /\ classify (lineAt lines 2) = MarkDelete
  /\ index 0 lineStarts 2 = 6
  /\ 3 <= 6 < 9.
Proof. repeat split; try reflexivity; lia. Qed.


(** The backgrounds of every block are among the collected annotations. *)
Lemma block_backgrounds_collected
    (differ : bytes -> bytes -> Z * Z -> list Annotation * list Annotation)
    (src : bytes) (anns0 : list Annotation) (b : ReplaceBlock) :
  let lineStarts := computeLineStarts (bytes_Split src) in
  let start := index 0 lineStarts in
  In b (replaceBlocks src) ->
  In (deleteBackground (start (blockDel b)) (start (blockIns b)))
     (collectAnnotations differ src anns0)
  /\ In (insertBackground (start (blockIns b)) (start (blockEnd b)))
        (collectAnnotations differ src anns0).
Proof.
  intros lineStarts start Hb. rewrite collect_blocks.
  split; apply in_or_app; right; apply in_flat_map; exists b;
    (split; [assumption|]); unfold blockAnnotations; simpl; auto.
Qed.

(** A text that ends with a newline, as the printed hunks do, has an empty
    last line, which is no change. *)
Lemma bytes_Split_trailing_newline (s : bytes) :
  bytes_Split (s ++ [newline]) = bytes_Split s ++ [[]].
Proof.
  induction s as [|c s IH]; simpl; [reflexivity|].
  destruct (Byte.eqb c newline); [now rewrite IH|].
  rewrite IH. destruct (bytes_Split s) as [|l ls] eqn:E; [|reflexivity].
  now destruct (bytes_Split_not_nil s).
Qed.

Lemma last_line_empty (s : bytes) :
  let lines := bytes_Split (s ++ [newline]) in
  lineAt lines (len lines - 1) = [].
Proof.
  intro lines. unfold lines. rewrite bytes_Split_trailing_newline.
  unfold lineAt, index, len. rewrite length_app. simpl.
  replace (Z.to_nat (Z.of_nat (length (bytes_Split s) + 1) - 1))
    with (length (bytes_Split s)) by lia.
  now rewrite nth_middle.
Qed.

Lemma closeBlock_fields (d i e : Z) (c : byte) :
  d <> -1 \/ i <> -1 ->
  blockDel (closeBlock d i e c) = (if d =? -1 then i else d)
  /\ blockIns (closeBlock d i e c) = (if i =? -1 then e else i)
  /\ blockEnd (closeBlock d i e c) = e.
Proof.
  intro Hset. unfold closeBlock.
  destruct (Z.eqb_spec d (-1)); destruct (Z.eqb_spec i (-1)); simpl;
    repeat split; try reflexivity; lia.
Qed.

(** C2 (as amended). When the last line of the text is no change (as the
    empty last line of a text that ends with a newline), the loop ends
    with [lastDel] and [lastIns] unset, and the run that reaches up to
    the last line has been closed by it as by any other such line: its
    block is among the blocks, with [blockDel] the first deleted line of
    the run (the first inserted line when there is none), [blockIns] the
    first inserted line of the run (the last line when there is none) and
    [blockEnd] the last line, and its two backgrounds, from the start of
    line [blockDel] to the start of line [blockIns] and from there to the
    start of the last line, are among the collected annotations. *)
Theorem trailing_run_closed_by_last_line
    (differ : bytes -> bytes -> Z * Z -> list Annotation * list Annotation)
    (src : bytes) (anns0 : list Annotation) :
  let lines := bytes_Split src in
  let lineStarts := computeLineStarts lines in
  let start := index 0 lineStarts in
  let final := len lines - 1 in
  let exit := loopUpTo differ lines lineStarts (length lines) anns0 in
  isChange (lineAt lines final) = false ->
  (lastDel exit = -1 /\ lastIns exit = -1)
  /\ (0 < final -> isChange (lineAt lines (final - 1)) = true ->
      exists m d i b del ins,
        (openRun lines m final /\ m < final
         /\ firstOf lines MarkDelete m final d
         /\ firstOf lines MarkInsert m final i)
        /\ In b (replaceBlocks src)
        /\ (blockDel b = (if d =? -1 then i else d)
            /\ blockIns b = (if i =? -1 then final else i)
            /\ blockEnd b = final)
        /\ In del (collectAnnotations differ src anns0)
        /\ In ins (collectAnnotations differ src anns0)
        /\ (Start del = start (blockDel b) /\ End del = start (blockIns b)
            /\ Left del = spanOpen "gd input-block" /\ Right del = spanClose
            /\ WantInner del = 0)
        /\ (Start ins = start (blockIns b) /\ End ins = start final
            /\ Left ins = spanOpen "gi input-block" /\ Right ins = spanClose
            /\ WantInner ins = 0)
        /\ (deletesFirst lines = true ->
            blockDel b = m
            /\ (forall k, m <= k < blockIns b ->
                  classify (lineAt lines k) = MarkDelete)
            /\ (forall k, blockIns b <= k < final ->
                  classify (lineAt lines k) = MarkInsert))).
Proof.
  intros lines lineStarts start final exit Hlast.
  pose proof (bytes_Split_length src) as Hpos. fold lines in Hpos.
  unfold exit. rewrite loop_detect. simpl.
  destruct (length lines) as [|n'] eqn:En; [lia|].
  assert (Hfinal : final = Z.of_nat n') by (unfold final, len; lia).
  rewrite Hfinal in *. split.
  - now rewrite detect_reset.
  - intros Hn Hprev.
    destruct (detect_inv lines n') as (m & Hrun & _).
    set (d := fst (fst (detectUpTo lines n'))) in *.
    set (i := snd (fst (detectUpTo lines n'))) in *.
    assert (Hm : m < Z.of_nat n').
    { destruct Hrun as ((Hb & _ & Hmax) & _).
      destruct (Z.eq_dec m (Z.of_nat n')) as [->|]; [|lia].
      destruct Hmax as [H0 | Hf]; [lia | congruence]. }
    pose proof (detect_complete lines (S n') _ _ _ _ Hrun Hm Hlast ltac:(lia)) as Hin.
    rewrite <- En in Hin. fold (replaceBlocks src) in Hin.
    destruct (closeBlock_fields d i (Z.of_nat n')
                (lineFirstChar (lineAt lines (Z.of_nat n')))
                (runState_open lines _ _ _ _ Hrun Hm)) as (Fd & Fi & Fe).
    destruct (block_backgrounds_fields differ src anns0 _ Hin)
      as (del & ins & more & _ & Hd & Hi & Bd & Bi).
    fold lines in Bd, Bi. fold lineStarts in Bd, Bi. fold start in Bd, Bi.
    rewrite Fe in Bi.
    exists m, d, i, (closeBlock d i (Z.of_nat n') (lineFirstChar (lineAt lines (Z.of_nat n')))),
           del, ins.
    split; [destruct Hrun as (Ho & Hfd & Hfi); auto|].
    split; [exact Hin|]. split; [auto|].
    split; [exact Hd|]. split; [exact Hi|].
    split; [exact Bd|]. split; [exact Bi|].
    intro Hgrouped.
    pose proof Hin as Hc. apply replaceBlocks_closed in Hc. fold lines in Hc.
    destruct (grouped_block lines Hgrouped _ _ Hc)
      as (H1 & H2 & H3 & Hdel & Hins & _ & Hmax).
    rewrite Fe in *.
    assert (Hbm : blockDel (closeBlock d i (Z.of_nat n')
                              (lineFirstChar (lineAt lines (Z.of_nat n')))) = m).
    { apply (openRun_unique lines _ _ (Z.of_nat n')); [|destruct Hrun; assumption].
      split; [lia|]. split; [|assumption].
      intros k Hk. unfold isChange.
      destruct (Z_lt_ge_dec k (blockIns (closeBlock d i (Z.of_nat n')
                                          (lineFirstChar (lineAt lines (Z.of_nat n'))))));
        [now rewrite Hdel by lia | now rewrite Hins by lia]. }
    split; [exact Hbm|]. rewrite Hbm in Hdel. split; assumption.
Qed.

Lemma trailing_run_closed_by_last_line_witness :
  let src := textOf ["-a"; "+b"]%string in
  isChange (lineAt (bytes_Split src) 2) = false
  /\ exists b del ins,
       In b (replaceBlocks src)
       /\ (blockDel b = 0 /\ blockIns b = 1 /\ blockEnd b = 2)
       /\ In del (collectAnnotations noIntraline src [])
       /\ In ins (collectAnnotations noIntraline src [])
       /\ (Start del = 0 /\ End del = 3)
       /\ (Start ins = 3 /\ End ins = 6).
Proof.
  split; [reflexivity|].
  destruct (trailing_run_closed_by_last_line noIntraline
              (textOf ["-a"; "+b"]%string) [] eq_refl) as (_ & H2).
  destruct (H2 eq_refl eq_refl)
    as (m & d & i & b & del & ins & _ & Hb & _ & Hd & Hi & Fd & Fi & Hg).
  destruct (Hg eq_refl) as (Hm & Hdel & Hins).
  exists b, del, ins.
  assert (Hb' : b = mkBlock 0 1 2 nul).
  { destruct Hb as [<- | []]. reflexivity. }
  subst b. cbn [blockDel blockIns blockEnd] in *.
  destruct Fd as (Sd & Ed & _). destruct Fi as (Si & Ei & _).
  split; [now left|]. split; [auto|].
  split; [exact Hd|]. split; [exact Hi|].
  split; [split; [exact Sd | exact Ed] | split; [exact Si | exact Ei]].
Defined.

(** C2 (as stated) fails: the text [-a], [+b] without a final newline ends
    with an inserted line; the loop ends with [lastDel = 0] and
    [lastIns = 1] still set, no block is closed and no annotation is
    collected. *)
Lemma trailing_run_left_open :
  let src := bytes_of "-a" ++ [newline] ++ bytes_of "+b" in
  let lines := bytes_Split src in
  let exit := loopUpTo noIntraline lines (computeLineStarts lines) (length lines) [] in
  classify (lineAt lines (len lines - 1)) = MarkInsert
  /\ lastDel exit = 0 /\ lastIns exit = 1
  /\ replaceBlocks src = []
  /\ collectAnnotations noIntraline src [] = [].
Proof. repeat split; reflexivity. Qed.

(** C9. A run of insertions only, closed by line [e], gets an empty delete
    background (its start equals its end) at the start of the run's first
    line, and an insert background from there to the start of line [e]; a
    run of deletions only gets a delete background from the start of the
    run to the start of line [e], and an empty insert background at the
    start of line [e], the line that closed the block. *)
Theorem degenerate_block_backgrounds
    (differ : bytes -> bytes -> Z * Z -> list Annotation * list Annotation)
    (src : bytes) (anns0 : list Annotation) (m e : Z) :
  let lines := bytes_Split src in
  let lineStarts := computeLineStarts lines in
  let start := index 0 lineStarts in
  let collected := collectAnnotations differ src anns0 in
  openRun lines m e -> m < e < len lines ->
  isChange (lineAt lines e) = false ->
  ((forall k, m <= k < e -> classify (lineAt lines k) = MarkInsert) ->
     let b := mkBlock m m e (lineFirstChar (lineAt lines e)) in
     In b (replaceBlocks src)
     /\ exists del ins more,
          blockAnnotations differ lines lineStarts b = del :: ins :: more
          /\ In del collected /\ In ins collected
          /\ (Start del = start m /\ End del = start m
              /\ Left del = spanOpen "gd input-block" /\ Right del = spanClose)
          /\ (Start ins = start m /\ End ins = start e
              /\ Left ins = spanOpen "gi input-block" /\ Right ins = spanClose)
          /\ Start ins < End ins)
  /\ ((forall k, m <= k < e -> classify (lineAt lines k) = MarkDelete) ->
     let b := mkBlock m e e (lineFirstChar (lineAt lines e)) in
     In b (replaceBlocks src)
     /\ exists del ins more,
          blockAnnotations differ lines lineStarts b = del :: ins :: more
          /\ In del collected /\ In ins collected
          /\ (Start del = start m /\ End del = start e
              /\ Left del = spanOpen "gd input-block" /\ Right del = spanClose)
          /\ (Start ins = start e /\ End ins = start e
              /\ Left ins = spanOpen "gi input-block" /\ Right ins = spanClose)
          /\ Start del < End del).
Proof.
  intros lines lineStarts start collected Hopen Hme Hclose.
  pose proof (proj1 Hopen) as Hm0.
  assert (Hn : e < Z.of_nat (length lines)) by (unfold len in Hme; lia).
  assert (Hlt : start m < start e).
  { pose proof (start_next src m e ltac:(lia) ltac:(fold lines; lia)) as S1.
    fold lines in S1. fold lineStarts in S1. fold start in S1. unfold len in S1. lia. }
  split; intros Hall b.
  - assert (Hrun : runState lines m e (-1) m).
    { split; [assumption|]. split.
      - left. split; [reflexivity|]. intros k Hk. rewrite Hall by assumption. discriminate.
      - right. split; [lia|]. split; [apply Hall; lia | intros; lia]. }
    pose proof (detect_complete lines _ _ _ _ _ Hrun (proj1 Hme) Hclose Hn) as Hin.
    change (closeBlock (-1) m e (lineFirstChar (lineAt lines e))) with b in Hin.
    fold (replaceBlocks src) in Hin. split; [exact Hin|].
    destruct (block_backgrounds_fields differ src anns0 b Hin)
      as (del & ins & more & Hanns & Hd & Hi & (Sd & Ed & Ld & Rd & _)
          & (Si & Ei & Li & Ri & _)).
    exists del, ins, more. unfold b in Sd, Ed, Si, Ei.
    cbn [blockDel blockIns blockEnd] in Sd, Ed, Si, Ei.
    fold lines in Sd, Ed, Si, Ei. fold lineStarts in Sd, Ed, Si, Ei.
    fold start in Sd, Ed, Si, Ei.
    repeat split; try assumption. rewrite Si, Ei. exact Hlt.
  - assert (Hrun : runState lines m e m (-1)).
    { split; [assumption|]. split.
      - right. split; [lia|]. split; [apply Hall; lia | intros; lia].
      - left. split; [reflexivity|]. intros k Hk. rewrite Hall by assumption. discriminate. }
    pose proof (detect_complete lines _ _ _ _ _ Hrun (proj1 Hme) Hclose Hn) as Hin.
    assert (Hcb : closeBlock m (-1) e (lineFirstChar (lineAt lines e)) = b).
    { unfold closeBlock. destruct (Z.eqb_spec m (-1)); [lia | reflexivity]. }
    rewrite Hcb in Hin. fold (replaceBlocks src) in Hin. split; [exact Hin|].
    destruct (block_backgrounds_fields differ src anns0 b Hin)
      as (del & ins & more & Hanns & Hd & Hi & (Sd & Ed & Ld & Rd & _)
          & (Si & Ei & Li & Ri & _)).
    exists del, ins, more. unfold b in Sd, Ed, Si, Ei.
    cbn [blockDel blockIns blockEnd] in Sd, Ed, Si, Ei.
    fold lines in Sd, Ed, Si, Ei. fold lineStarts in Sd, Ed, Si, Ei.
    fold start in Sd, Ed, Si, Ei.
    repeat split; try assumption. rewrite Sd, Ed. exact Hlt.
Qed.

Lemma degenerate_block_backgrounds_witness :
  (let src := textOf [" x"; "+a"; " y"]%string in
   exists del ins,
     In del (collectAnnotations noIntraline src [])
     /\ In ins (collectAnnotations noIntraline src [])
     /\ (Start del = 3 /\ End del = 3)
     /\ (Start ins = 3 /\ End ins = 6))
  /\ (let src := textOf [" x"; "-a"; " y"]%string in
      exists del ins,
        In del (collectAnnotations noIntraline src [])
        /\ In ins (collectAnnotations noIntraline src [])
        /\ (Start del = 3 /\ End del = 6)
        /\ (Start ins = 6 /\ End ins = 6)).
Proof.
  assert (Hrun : forall src,
            isChange (lineAt (bytes_Split src) 0) = false ->
            isChange (lineAt (bytes_Split src) 1) = true ->
            openRun (bytes_Split src) 1 2).
  { intros src H0 H1. split; [lia|]. split; [|now right].
    intros k Hk. now replace k with 1 by lia. }
  split.
  - destruct (degenerate_block_backgrounds noIntraline
                (textOf [" x"; "+a"; " y"]%string) [] 1 2
                (Hrun (textOf [" x"; "+a"; " y"]%string) eq_refl eq_refl)
                (conj eq_refl eq_refl) eq_refl) as (H & _).
    destruct H as (_ & del & ins & more & _ & Hd & Hi & (Sd & Ed & _) & (Si & Ei & _) & _).
    { intros k Hk. now replace k with 1 by lia. }
    exists del, ins. repeat split; assumption.
  - destruct (degenerate_block_backgrounds noIntraline
                (textOf [" x"; "-a"; " y"]%string) [] 1 2
                (Hrun (textOf [" x"; "-a"; " y"]%string) eq_refl eq_refl)
                (conj eq_refl eq_refl) eq_refl) as (_ & H).
    destruct H as (_ & del & ins & more & _ & Hd & Hi & (Sd & Ed & _) & (Si & Ei & _) & _).
    { intros k Hk. now replace k with 1 by lia. }
    exists del, ins. repeat split; assumption.
Defined.

(** ** What the differ is called with *)

Lemma blockContent_lines (lines : list bytes) (a b : Z) :
  0 <= a -> b <= len lines ->
  blockContent lines a b
  = flat_map (fun l => [nul] ++ tl l ++ [newline]) (slice lines a b).
Proof.
  intros Ha Hb. destruct (Z_le_gt_dec a b) as [Hab | Hab].
  - apply blockContent_slice; lia.
  - rewrite blockContent_empty by lia. unfold slice.
    now replace (Z.to_nat (b - a)) with 0%nat by lia.
Qed.

Lemma slice_In (lines : list bytes) (a b : Z) (l : bytes) :
  0 <= a -> b <= len lines ->
  In l (slice lines a b) -> exists k, a <= k < b /\ l = lineAt lines k.
Proof.
  intros Ha Hb Hin. destruct (Z_le_gt_dec a b) as [Hab | Hab].
  - rewrite <- (upto_slice [] lines a b) in Hin by lia.
    apply in_map_iff in Hin. destruct Hin as (k & <- & Hk).
    exists k. split; [|reflexivity].
    unfold upto in Hk. apply in_map_iff in Hk. destruct Hk as (j & <- & Hj).
    apply in_seq in Hj. lia.
  - unfold slice in Hin. replace (Z.to_nat (b - a)) with 0%nat in Hin by lia.
    destruct Hin.
Qed.

(** Replacing the marker of each line by a zero byte keeps the length. *)
Lemma content_length (L : list bytes) :
  (forall l, In l L -> l <> []) ->
  len (flat_map (fun l => [nul] ++ tl l ++ [newline]) L)
  = len (flat_map withNewline L).
Proof.
  induction L as [|l L IH]; intro Hne; [reflexivity|].
  cbn [flat_map].
  rewrite (len_app (withNewline l)), (len_app ([nul] ++ tl l ++ [newline])).
  rewrite IH by (intros; apply Hne; now right).
  destruct l as [|c rest]; [now destruct (Hne [] (or_introl eq_refl))|].
  reflexivity.
Qed.

(** The lines of a closed block, from any of its indices to any other,
    are changes. *)
Lemma block_lines_change (lines : list bytes) (n : Z) (b : ReplaceBlock) (x y : Z) (l : bytes) :
  closedAt lines n b -> n <= len lines ->
  (x = blockDel b \/ x = blockIns b) ->
  (y = blockIns b \/ y = blockEnd b) ->
  In l (slice lines x y) -> isChange l = true.
Proof.
  intros Hb Hn Hx Hy Hin.
  destruct (closedAt_shape lines n b Hb) as (m & (Hm & Hall & _) & Hlt & Hdel & Hins & _).
  destruct (slice_In lines x y l) as (k & Hk & ->); try assumption;
    [destruct Hx; lia | destruct Hy; lia |].
  apply Hall. destruct Hx, Hy; lia.
Qed.

(** C4 (as amended). For every block closed by a line that does not begin
    with [@], the differ is called, with a [leftContent] that is the
    concatenation, over the lines from [blockDel] up to [blockIns], of a
    zero byte, the line without its marker and a newline, and a
    [rightContent] built likewise over the lines from [blockIns] up to
    [blockEnd]; every such line begins with its marker, each content is as
    long as the lines it is built from, and with the deletions first the
    former lines are the deleted and the latter the inserted lines. *)
Theorem differ_contents
    (differ : bytes -> bytes -> Z * Z -> list Annotation * list Annotation)
    (src : bytes) (b : ReplaceBlock) :
  let lines := bytes_Split src in
  let lineStarts := computeLineStarts lines in
  let start := index 0 lineStarts in
  let strip := fun l : bytes => [nul] ++ tl l ++ [newline] in
  let deleted := slice lines (blockDel b) (blockIns b) in
  let inserted := slice lines (blockIns b) (blockEnd b) in
  In b (replaceBlocks src) ->
  blockCloser b <> at_sign ->
  blockAnnotations differ lines lineStarts b
  = [deleteBackground (start (blockDel b)) (start (blockIns b));
     insertBackground (start (blockIns b)) (start (blockEnd b))]
    ++ fst (differ (flat_map strip deleted) (flat_map strip inserted)
                   (start (blockDel b), start (blockIns b)))
    ++ snd (differ (flat_map strip deleted) (flat_map strip inserted)
                   (start (blockDel b), start (blockIns b)))
  /\ (forall l, In l deleted \/ In l inserted ->
        exists c rest, l = c :: rest /\ (c = plus \/ c = minus))
  /\ len (flat_map strip deleted) = len (flat_map withNewline deleted)
  /\ len (flat_map strip inserted) = len (flat_map withNewline inserted)
  /\ (deletesFirst lines = true ->
        (forall l, In l deleted -> classify l = MarkDelete)
        /\ (forall l, In l inserted -> classify l = MarkInsert)).
Proof.
  intros lines lineStarts start strip deleted inserted Hb Hcloser.
  apply replaceBlocks_closed in Hb. fold lines in Hb.
  destruct (closedAt_shape lines _ b Hb) as (m & (Hm & _) & Hlt & Hdel & Hins & _).
  assert (Hchange : forall l, In l deleted \/ In l inserted -> isChange l = true).
  { intros l [Hin | Hin];
      [ apply (block_lines_change lines (len lines) b (blockDel b) (blockIns b))
      | apply (block_lines_change lines (len lines) b (blockIns b) (blockEnd b)) ];
      auto; lia. }
  split; [|split; [|split; [|split]]].
  - unfold blockAnnotations.
    destruct (Byte.eqb at_sign (blockCloser b)) eqn:E;
      [apply Byte.byte_dec_bl in E; congruence|].
    simpl negb. cbv iota.
    rewrite !blockContent_lines by lia. reflexivity.
  - intros l Hl. apply isChange_nonempty. auto.
  - apply content_length. intros l Hl ->. specialize (Hchange [] (or_introl Hl)).
    discriminate.
  - apply content_length. intros l Hl ->. specialize (Hchange [] (or_intror Hl)).
    discriminate.
  - intro Hgrouped.
    destruct (grouped_block lines Hgrouped _ _ Hb) as (H1 & H2 & H3 & Hd & Hi & _).
    split; intros l Hl.
    + destruct (slice_In lines (blockDel b) (blockIns b) l ltac:(lia) ltac:(lia) Hl)
        as (k & Hk & ->). auto.
    + destruct (slice_In lines (blockIns b) (blockEnd b) l ltac:(lia) ltac:(lia) Hl)
        as (k & Hk & ->). auto.
Qed.

Lemma differ_contents_witness :
  let src := textOf ["-a"; "+b"]%string in
  In (mkBlock 0 1 2 nul) (replaceBlocks src)
  /\ blockAnnotations echoContents (bytes_Split src)
       (computeLineStarts (bytes_Split src)) (mkBlock 0 1 2 nul)
     = [deleteBackground 0 3; insertBackground 3 6;
        mkAnn 0 3 [x00; x61; x0a] [x00; x62; x0a] 0].
Proof.
  assert (Hin : In (mkBlock 0 1 2 nul) (replaceBlocks (textOf ["-a"; "+b"]%string)))
    by (now left).
  split; [exact Hin|].
  destruct (differ_contents echoContents (textOf ["-a"; "+b"]%string)
              (mkBlock 0 1 2 nul) Hin ltac:(discriminate)) as (H & _).
  rewrite H. reflexivity.
Defined.

(** C4 (as stated) fails: for the text [-a], [+b] the differ is called
    with the contents [\x00a\n] and [\x00b\n], while the lines without
    their markers, each followed by a newline, are [a\n] and [b\n]. *)
Lemma differ_content_has_zero_bytes :
  let src := textOf ["-a"; "+b"]%string in
  let lines := bytes_Split src in
  replaceBlocks src = [mkBlock 0 1 2 nul]
  /\ collectAnnotations echoContents src []
     = [deleteBackground 0 3; insertBackground 3 6;
        mkAnn 0 3 [x00; x61; x0a] [x00; x62; x0a] 0]
  /\ flat_map (fun l => tl l ++ [newline]) (slice lines 0 1) = [x61; x0a]
  /\ flat_map (fun l => tl l ++ [newline]) (slice lines 1 2) = [x62; x0a].
Proof. repeat split; reflexivity. Qed.

(** ** Hunk headers *)



Section HeaderLines.

Variable differ : bytes -> bytes -> Z * Z -> list Annotation * list Annotation.

(** What the caller relies on: the annotations the differ returns for a
    content lie within that content, moved by the offset given for it. *)
Hypothesis differ_within :
  forall (leftContent rightContent : bytes) (offsetLeft offsetRight : Z) (a : Annotation),
    (In a (fst (differ leftContent rightContent (offsetLeft, offsetRight))) ->
     offsetLeft <= Start a /\ End a <= offsetLeft + len leftContent)
    /\ (In a (snd (differ leftContent rightContent (offsetLeft, offsetRight))) ->
        offsetRight <= Start a /\ End a <= offsetRight + len rightContent).

Variable src : bytes.

Let lines := bytes_Split src.
Let lineStarts := computeLineStarts lines.
Let start := index 0 lineStarts.

(** A content ends where the block ends, at the latest. *)
Lemma block_content_bound (b : ReplaceBlock) (m x y : Z) :
  closedAt lines (len lines) b ->
  openRun lines m (blockEnd b) ->
  m <= x <= blockEnd b -> m <= y <= blockEnd b ->
  start m <= start x
  /\ start x + len (blockContent lines x y) <= start (blockEnd b).
Proof.
  intros Hb (Hm & Hall & _) Hx Hy.
  destruct Hb as (m' & d & i & e & _ & He & _ & ->).
  rewrite blockEnd_closeBlock in *.
  split; [apply (start_le src); fold lines; lia|].
  destruct (Z_le_gt_dec x y) as [Hxy | Hxy].
  - rewrite blockContent_slice by lia.
    rewrite content_length.
    + destruct (lines_span src x y ltac:(lia) ltac:(fold lines; lia)) as (_ & H).
      fold lines in H. fold lineStarts in H. fold start in H. rewrite <- H.
      apply (start_le src); fold lines; lia.
    + intros l Hl ->.
      destruct (slice_In lines x y [] ltac:(lia) ltac:(lia) Hl) as (k & Hk & Hk').
      specialize (Hall k ltac:(lia)). rewrite <- Hk' in Hall. discriminate.
  - rewrite blockContent_empty by lia. change (len []) with 0.
    rewrite Z.add_0_r. apply (start_le src); fold lines; lia.
Qed.

(** The annotations of a block lie within the bytes of its run. *)
Lemma block_annotation_range (b : ReplaceBlock) :
  closedAt lines (len lines) b ->
  exists m,
    openRun lines m (blockEnd b) /\ blockEnd b < len lines
    /\ forall a, In a (blockAnnotations differ lines lineStarts b) ->
         (start m <= Start a /\ End a <= start (blockEnd b)).
Proof.
  intro Hb.
  destruct (closedAt_shape lines _ b Hb) as (m & Hopen & Hlt & Hdel & Hins & _).
  exists m. split; [assumption|]. split; [lia|].
  pose proof (proj1 Hopen) as Hm.
  pose proof (block_content_bound b m _ _ Hb Hopen Hdel Hins) as (HL1 & HL2).
  pose proof (block_content_bound b m (blockIns b) (blockEnd b) Hb Hopen Hins ltac:(lia))
    as (HR1 & HR2).
  assert (Hie : start (blockIns b) <= start (blockEnd b))
    by (apply (start_le src); fold lines; lia).
  intros a Ha. unfold blockAnnotations in Ha.
  apply in_app_or in Ha. destruct Ha as [[<- | [<- | []]] | Ha]; simpl.
  - fold start. lia.
  - fold start. lia.
  - destruct (negb (Byte.eqb at_sign (blockCloser b))); [|destruct Ha].
    fold start in Ha. apply in_app_or in Ha. destruct Ha as [Ha | Ha].
    + apply differ_within in Ha. lia.
    + apply differ_within in Ha. lia.
Qed.

End HeaderLines.




(** ** The merger *)



(** ** Line classification *)

Lemma classify_tests (l : bytes) :
  (classify l = MarkInsert -> Byte.eqb (lineFirstChar l) plus = true)
  /\ (classify l = MarkDelete ->
      Byte.eqb (lineFirstChar l) plus = false
      /\ Byte.eqb (lineFirstChar l) minus = true).
Proof.
  unfold classify.
  destruct (Byte.eqb (lineFirstChar l) plus); [split; [auto | discriminate]|].
  destruct (Byte.eqb (lineFirstChar l) minus); [split; [discriminate | auto]|].
  destruct (Byte.eqb (lineFirstChar l) at_sign); split; discriminate.
Qed.

(** C3. Classification is a function of the line alone: a line that begins
    with [-] is a deletion, a line that begins with [+] is an insertion, an
    empty line is context.  The loop follows it: at a deletion it sets
    [lastDel] if it is unset, at an insertion it sets [lastIns] if it is
    unset, and at an empty line it unsets both and, if either was set,
    appends the annotations of the block it closes. *)
Theorem classify_first_byte :
  (forall rest, classify (minus :: rest) = MarkDelete)
  /\ (forall rest, classify (plus :: rest) = MarkInsert)
  /\ classify [] = MarkContext
  /\ (forall differ lines lineStarts st lineIndex,
        classify (index [] lines lineIndex) = MarkDelete ->
        loopBody differ lines lineStarts st lineIndex
        = if lastDel st =? -1 then mkLoop lineIndex (lastIns st) (anns st) else st)
  /\ (forall differ lines lineStarts st lineIndex,
        classify (index [] lines lineIndex) = MarkInsert ->
        loopBody differ lines lineStarts st lineIndex
        = if lastIns st =? -1 then mkLoop (lastDel st) lineIndex (anns st) else st)
  /\ (forall differ lines lineStarts st lineIndex,
        index [] lines lineIndex = [] ->
        let st' := loopBody differ lines lineStarts st lineIndex in
        lastDel st' = -1 /\ lastIns st' = -1
        /\ (lastDel st <> -1 \/ lastIns st <> -1 ->
            anns st'
            = anns st
              ++ blockAnnotations differ lines lineStarts
                   (closeBlock (lastDel st) (lastIns st) lineIndex nul))
        /\ (lastDel st = -1 -> lastIns st = -1 -> anns st' = anns st)).
Proof.
  split; [reflexivity|]. split; [reflexivity|]. split; [reflexivity|].
  split; [|split].
  - intros differ lines lineStarts st lineIndex H.
    destruct (proj2 (classify_tests _) H) as (Hp & Hm).
    unfold loopBody. now rewrite Hp, Hm.
  - intros differ lines lineStarts st lineIndex H.
    pose proof (proj1 (classify_tests _) H) as Hp.
    unfold loopBody. now rewrite Hp.
  - intros differ lines lineStarts st lineIndex H st'.
    unfold st', loopBody. rewrite H. simpl.
    destruct (Z.eqb_spec (lastDel st) (-1)) as [Hd | Hd];
      destruct (Z.eqb_spec (lastIns st) (-1)) as [Hi | Hi]; simpl;
      (split; [reflexivity|]); (split; [reflexivity|]);
      (split; [intros [? | ?] | intros ? ?]); try reflexivity; contradiction.
Qed.

(** ** [timelineItem] *)

(** C10. For a [timelineItem] whose value is neither an [issues.Comment]
    nor an [issues.Event], each of [TemplateName], [CreatedAt] and [ID]
    panics with the error [unknown item type T], [T] being the type of the
    value. *)
Theorem unknown_item_panics (i : Display.timelineItem) :
  (forall c, Display.TimelineItem i <> Display.AnyComment c) ->
  (forall e, Display.TimelineItem i <> Display.AnyEvent e) ->
  exists typeName,
    Display.TimelineItem i = Display.AnyOther typeName
    /\ Display.TemplateName i = Display.Panics ("unknown item type " ++ typeName)%string
    /\ Display.CreatedAt i = Display.Panics ("unknown item type " ++ typeName)%string
    /\ Display.ID i = Display.Panics ("unknown item type " ++ typeName)%string.
Proof.
  intros Hc He. destruct i as [v].
  destruct v as [c | e | typeName]; simpl in *.
  - now destruct (Hc c).
  - now destruct (He e).
  - exists typeName. repeat split.
Qed.

Lemma unknown_item_panics_witness :
  Display.TemplateName (Display.mkItem (Display.AnyOther "*issues.Comment"))
  = Display.Panics "unknown item type *issues.Comment"%string
  /\ Display.CreatedAt (Display.mkItem (Display.AnyOther "*issues.Comment"))
     = Display.Panics "unknown item type *issues.Comment"%string
  /\ Display.ID (Display.mkItem (Display.AnyOther "*issues.Comment"))
     = Display.Panics "unknown item type *issues.Comment"%string.
Proof.
  destruct (unknown_item_panics (Display.mkItem (Display.AnyOther "*issues.Comment"))
              ltac:(discriminate) ltac:(discriminate))
    as (typeName & Hv & H1 & H2 & H3).
  injection Hv as <-. exact (conj H1 (conj H2 H3)).
Defined.


(** * Further properties *)

(** ** [highlightDiff]: the blocks and their annotations *)

Lemma start_bounds (src : bytes) (k : Z) :
  let lines := bytes_Split src in
  let start := index 0 (computeLineStarts lines) in
  0 <= k < len lines -> 0 <= start k <= len src.
Proof.
  intros lines start Hk. unfold start. rewrite lineStart_index by (fold lines; lia).
  destruct (text_line_decomp src (Z.to_nat k)) as (X & HX & _).
  { fold lines. unfold len in Hk. lia. }
  fold lines in HX. apply (f_equal (@length _)) in HX.
  rewrite length_app in HX. unfold len. lia.
Qed.

(** The background annotations of every block lie within the text; the
    delete background ends where the insert background starts, the insert
    background never ends before it starts, and neither does the delete
    background when the deletions of every run come first. *)
Theorem backgrounds_in_bounds
    (differ : bytes -> bytes -> Z * Z -> list Annotation * list Annotation)
    (src : bytes) (anns0 : list Annotation) (b : ReplaceBlock) :
  let lines := bytes_Split src in
  let start := index 0 (computeLineStarts lines) in
  let del := deleteBackground (start (blockDel b)) (start (blockIns b)) in
  let ins := insertBackground (start (blockIns b)) (start (blockEnd b)) in
  In b (replaceBlocks src) ->
  In del (collectAnnotations differ src anns0)
  /\ In ins (collectAnnotations differ src anns0)
  /\ (0 <= Start del <= len src /\ 0 <= End del <= len src)
  /\ (0 <= Start ins <= len src /\ 0 <= End ins <= len src)
  /\ End del = Start ins
  /\ Start ins <= End ins
  /\ (deletesFirst lines = true -> Start del <= End del).
Proof.
  intros lines start del ins Hb.
  destruct (block_backgrounds_collected differ src anns0 b Hb) as (Hd & Hi).
  split; [exact Hd|]. split; [exact Hi|].
  apply replaceBlocks_closed in Hb. fold lines in Hb.
  destruct (closedAt_shape lines _ b Hb) as (m & (Hm & _) & Hlt & Hdel & Hins & _).
  pose proof (start_bounds src (blockDel b) ltac:(fold lines; lia)) as B1.
  pose proof (start_bounds src (blockIns b) ltac:(fold lines; lia)) as B2.
  pose proof (start_bounds src (blockEnd b) ltac:(fold lines; lia)) as B3.
  fold lines in B1, B2, B3. fold start in B1, B2, B3.
  unfold del, ins. simpl.
  repeat split; try lia.
  - apply (start_le src); fold lines; lia.
  - intro Hgrouped.
    destruct (grouped_block lines Hgrouped _ _ Hb) as (H1 & _).
    apply (start_le src); fold lines; lia.
Qed.

Lemma backgrounds_in_bounds_witness :
  let src := textOf [" x"; "-a"; "+bc"; " y"]%string in
  In (deleteBackground 3 6) (collectAnnotations noIntraline src [])
  /\ In (insertBackground 6 10) (collectAnnotations noIntraline src [])
  /\ len src = 13.
Proof.
  destruct (backgrounds_in_bounds noIntraline
              (textOf [" x"; "-a"; "+bc"; " y"]%string) [] (mkBlock 1 2 3 x20))
    as (Hd & Hi & _); [now left|].
  split; [exact Hd|]. split; [exact Hi | reflexivity].
Defined.

Lemma forallb_lineAt (P : bytes -> bool) (lines : list bytes) (k : Z) :
  forallb P lines = true -> 0 <= k < len lines -> P (lineAt lines k) = true.
Proof.
  intros H Hk. rewrite forallb_forall in H. apply H.
  unfold lineAt, index. apply nth_In. unfold len in Hk. lia.
Qed.

(** A text without a line that begins with [+] or [-] (the empty text, a
    text of context lines and hunk headers) has no block, and
    [highlightDiff] adds no annotation to those of
    [highlight_diff.Annotate]. *)
Theorem no_changes_no_annotations
    (differ : bytes -> bytes -> Z * Z -> list Annotation * list Annotation)
    (src : bytes) (anns0 : list Annotation) :
  forallb (fun l => negb (isChange l)) (bytes_Split src) = true ->
  replaceBlocks src = []
  /\ collectAnnotations differ src anns0 = anns0.
Proof.
  intro Hnone.
  assert (Hblocks : replaceBlocks src = []).
  { destruct (replaceBlocks src) as [|b rest] eqn:E; [reflexivity|].
    assert (Hb : In b (replaceBlocks src)) by (rewrite E; now left).
    apply replaceBlocks_closed in Hb.
    destruct (closedAt_shape _ _ b Hb) as (m & (Hm & Hall & _) & Hlt & _).
    pose proof (forallb_lineAt _ _ m Hnone ltac:(lia)) as Hm'.
    cbv beta in Hm'. rewrite (Hall m ltac:(lia)) in Hm'. discriminate. }
  split; [assumption|].
  rewrite collect_blocks, Hblocks. simpl. apply app_nil_r.
Qed.

Lemma no_changes_no_annotations_witness :
  let src := textOf ["@@ -1,2 +1,2 @@"; " x"; " y"]%string in
  collectAnnotations echoContents src [mkAnn 0 2 [] [] 0] = [mkAnn 0 2 [] [] 0].
Proof.
  apply (no_changes_no_annotations echoContents
           (textOf ["@@ -1,2 +1,2 @@"; " x"; " y"]%string)). reflexivity.
Defined.

Lemma closedAt_end_unique (lines : list bytes) (n : Z) (b b' : ReplaceBlock) :
  closedAt lines n b -> closedAt lines n b' -> blockEnd b = blockEnd b' -> b = b'.
Proof.
  intros (m & d & i & e & Hrun & _ & _ & ->) (m' & d' & i' & e' & Hrun' & _ & _ & ->).
  rewrite !blockEnd_closeBlock. intros <-.
  destruct (runState_unique _ _ _ _ _ _ _ _ Hrun Hrun') as (_ & <- & <-).
  reflexivity.
Qed.

Lemma sorted_snoc {A} (R : A -> A -> Prop) (l : list A) (y : A) :
  StronglySorted R l -> (forall x, In x l -> R x y) -> StronglySorted R (l ++ [y]).
Proof.
  induction 1 as [|x l Hl IH Hx]; intro Hy; simpl.
  - constructor; constructor.
  - constructor.
    + apply IH. intros z Hz. apply Hy. now right.
    + apply Forall_app. split; [assumption|].
      constructor; [apply Hy; now left | constructor].
Qed.

(** The detector appends the blocks in the order of the text. *)
Lemma detect_sorted (lines : list bytes) (n : nat) :
  StronglySorted (fun b b' => blockEnd b < blockEnd b') (snd (detectUpTo lines n)).
Proof.
  induction n as [|n IH]; [constructor|].
  destruct (detect_inv lines n) as (_ & _ & Hblocks).
  rewrite detectUpTo_S.
  destruct (detectUpTo lines n) as [[d i] blocks]. simpl in IH, Hblocks.
  unfold detectBody.
  destruct (Byte.eqb _ plus); [destruct (i =? -1); assumption|].
  destruct (Byte.eqb _ minus); [destruct (d =? -1); assumption|].
  destruct (negb (d =? -1) || negb (i =? -1)); simpl; [|assumption].
  apply sorted_snoc; [assumption|].
  intros b Hb. rewrite blockEnd_closeBlock.
  destruct (Hblocks b Hb) as (m & d' & i' & e & _ & He & _ & ->).
  rewrite blockEnd_closeBlock. lia.
Qed.

(** The blocks are in the order of the text and apart from each other: a
    block is closed before the next one begins, and (the differ keeping
    its annotations within the contents it is given) every annotation of
    a block ends before any annotation of a later block starts. *)
Theorem blocks_in_order_and_apart
    (differ : bytes -> bytes -> Z * Z -> list Annotation * list Annotation)
    (src : bytes) :
  let lines := bytes_Split src in
  let lineStarts := computeLineStarts lines in
  (forall (l r : bytes) (ol or : Z) (a : Annotation),
     (In a (fst (differ l r (ol, or))) -> ol <= Start a /\ End a <= ol + len l)
     /\ (In a (snd (differ l r (ol, or))) -> or <= Start a /\ End a <= or + len r)) ->
  StronglySorted (fun b b' => blockEnd b < blockEnd b') (replaceBlocks src)
  /\ (forall b b', In b (replaceBlocks src) -> In b' (replaceBlocks src) ->
        blockEnd b = blockEnd b' -> b = b')
  /\ (forall b b', In b (replaceBlocks src) -> In b' (replaceBlocks src) ->
        blockEnd b < blockEnd b' ->
        blockEnd b < blockDel b' /\ blockEnd b < blockIns b'
        /\ forall a a',
             In a (blockAnnotations differ lines lineStarts b) ->
             In a' (blockAnnotations differ lines lineStarts b') ->
             End a <= Start a').
Proof.
  intros lines lineStarts Hwithin.
  split; [apply detect_sorted|]. split.
  - intros b b' Hb Hb'. apply replaceBlocks_closed in Hb, Hb'.
    eapply closedAt_end_unique; eauto.
  - intros b b' Hb Hb' Hlt.
    apply replaceBlocks_closed in Hb, Hb'. fold lines in Hb, Hb'.
    destruct (closedAt_shape lines _ b Hb) as (m & Hopen & Hme & _ & _ & Hclose & _).
    destruct (closedAt_shape lines _ b' Hb')
      as (m' & Hopen' & Hme' & Hdel' & Hins' & _).
    assert (Hsep : blockEnd b < m').
    { destruct (Z_lt_ge_dec (blockEnd b) m'); [assumption|].
      destruct Hopen' as (_ & Hall' & _).
      rewrite Hall' in Hclose by lia. discriminate. }
    split; [lia|]. split; [lia|].
    intros a a' Ha Ha'.
    destruct (block_annotation_range differ Hwithin src b Hb) as (m1 & Ho1 & _ & Hr1).
    destruct (block_annotation_range differ Hwithin src b' Hb') as (m2 & Ho2 & _ & Hr2).
    assert (m2 = m') by (eapply openRun_unique; eauto). subst m2.
    destruct (Hr1 a Ha) as (_ & Hend). destruct (Hr2 a' Ha') as (Hstart & _).
    pose proof (proj1 Hopen) as Hm.
    pose proof (start_le src (blockEnd b) m' ltac:(lia) ltac:(fold lines; lia)) as Hle.
    fold lines in Hle. unfold lines in *. lia.
Qed.

Lemma blocks_in_order_and_apart_witness :
  let src := textOf ["-a"; " x"; "+b"; " y"]%string in
  replaceBlocks src = [mkBlock 0 1 1 x20; mkBlock 2 2 3 x20]
  /\ StronglySorted (fun b b' => blockEnd b < blockEnd b') (replaceBlocks src).
Proof.
  split; [reflexivity|].
  apply (blocks_in_order_and_apart noIntraline
           (textOf ["-a"; " x"; "+b"; " y"]%string)).
  intros l r ol or a. split; intros [].
Defined.

(** A run that is open before line [k] goes on up to the next line that
    is no change. *)
Lemma extend_run (lines : list bytes) (m final : Z) :
  isChange (lineAt lines final) = false ->
  forall (n : nat) (k : Z), Z.of_nat n = final - k ->
    openRun lines m k ->
    exists e, k <= e <= final /\ openRun lines m e
              /\ isChange (lineAt lines e) = false.
Proof.
  intros Hfinal. induction n as [|n IH]; intros k Hn Hopen.
  - exists k. replace k with final in * by lia.
    split; [lia|]. split; assumption.
  - destruct (isChange (lineAt lines k)) eqn:Ek.
    + destruct (IH (k + 1)) as (e & He & Hopen' & Hclose); [lia | | ].
      * destruct Hopen as (Hb & Hall & Hmax).
        split; [lia|]. split; [|assumption].
        intros j Hj. destruct (Z.eq_dec j k) as [->|]; [assumption | apply Hall; lia].
      * exists e. split; [lia|]. split; assumption.
    + exists k. split; [lia|]. split; assumption.
Qed.

Lemma grouped_run_block (src : bytes) (m e : Z) :
  let lines := bytes_Split src in
  deletesFirst lines = true ->
  openRun lines m e -> m < e < len lines ->
  isChange (lineAt lines e) = false ->
  exists b, In b (replaceBlocks src) /\ blockDel b = m /\ blockEnd b = e.
Proof.
  intros lines Hgrouped Hopen Hme Hclose.
  pose proof (proj1 Hopen) as Hm.
  destruct (detect_inv lines (Z.to_nat e)) as (m' & Hrun & _).
  rewrite Z2Nat.id in Hrun by lia.
  assert (m' = m) by (destruct Hrun as (Hopen' & _); eauto using openRun_unique).
  subst m'.
  pose proof (detect_complete lines (length lines) _ _ _ _ Hrun (proj1 Hme) Hclose
                ltac:(unfold len in Hme; lia)) as Hin.
  fold (replaceBlocks src) in Hin.
  eexists. split; [exact Hin|]. split; [|apply blockEnd_closeBlock].
  apply replaceBlocks_closed in Hin. fold lines in Hin.
  destruct (grouped_block lines Hgrouped _ _ Hin)
    as (H1 & H2 & H3 & Hdel & Hins & Hend & Hmax).
  rewrite blockEnd_closeBlock in *.
  apply (openRun_unique lines _ _ e); [|assumption].
  split; [lia|]. split; [|assumption].
  intros k Hk. unfold isChange.
  match goal with
  | |- context [classify (lineAt lines k)] =>
      match type of Hins with
      | forall k, blockIns ?B <= k < _ -> _ =>
          destruct (Z_lt_ge_dec k (blockIns B));
          [now rewrite Hdel by lia | now rewrite Hins by lia]
      end
  end.
Qed.

(** The blocks partition the changed lines.  In a text whose runs have
    their deletions first and whose last line is no change (a text that
    ends with a newline), every line that begins with [+] or [-] lies in
    exactly one block, and every line of a block begins with [+] or
    [-]. *)
Theorem changed_lines_partitioned (src : bytes) :
  let lines := bytes_Split src in
  deletesFirst lines = true ->
  isChange (lineAt lines (len lines - 1)) = false ->
  (forall k, 0 <= k < len lines -> isChange (lineAt lines k) = true ->
     exists b,
       In b (replaceBlocks src) /\ blockDel b <= k < blockEnd b
       /\ forall b', In b' (replaceBlocks src) ->
            blockDel b' <= k < blockEnd b' -> b' = b)
  /\ (forall b k, In b (replaceBlocks src) -> blockDel b <= k < blockEnd b ->
        0 <= k < len lines /\ isChange (lineAt lines k) = true).
Proof.
  intros lines Hgrouped Hfinal.
  assert (Hinside : forall b k, In b (replaceBlocks src) ->
            blockDel b <= k < blockEnd b ->
            0 <= k < len lines /\ isChange (lineAt lines k) = true).
  { intros b k Hb Hk. apply replaceBlocks_closed in Hb. fold lines in Hb.
    destruct (grouped_block lines Hgrouped _ _ Hb) as (H1 & H2 & _ & Hdel & Hins & _).
    split; [lia|]. unfold isChange.
    destruct (Z_lt_ge_dec k (blockIns b));
      [now rewrite Hdel by lia | now rewrite Hins by lia]. }
  split; [|exact Hinside].
  intros k Hk Hchange.
  destruct (detect_inv lines (Z.to_nat (k + 1))) as (m & ((Hb & Hall & Hmax) & _) & _).
  rewrite Z2Nat.id in Hb, Hall by lia.
  assert (Hmk : m <= k).
  { destruct (Z.eq_dec m (k + 1)) as [->|]; [|lia].
    destruct Hmax as [H0 | Hf]; [lia|].
    replace (k + 1 - 1) with k in Hf by lia. congruence. }
  assert (Hkf : k + 1 <= len lines - 1).
  { destruct (Z.eq_dec k (len lines - 1)) as [->|]; [congruence | lia]. }
  destruct (extend_run lines m (len lines - 1) Hfinal
              (Z.to_nat (len lines - 1 - (k + 1))) (k + 1) ltac:(lia))
    as (e & He & Hopen & Hclose).
  { split; [lia|]. split; assumption. }
  destruct (grouped_run_block src m e Hgrouped Hopen ltac:(fold lines; lia) Hclose)
    as (b & Hin & Hdel & Hend).
  exists b. split; [assumption|]. split; [lia|].
  intros b' Hin' Hk'.
  pose proof Hin as Hc. pose proof Hin' as Hc'.
  apply replaceBlocks_closed in Hc, Hc'. fold lines in Hc, Hc'.
  apply (closedAt_end_unique lines _ _ _ Hc' Hc).
  destruct (grouped_block lines Hgrouped _ _ Hc') as (_ & _ & _ & _ & _ & Hclose' & _).
  destruct (Z.lt_trichotomy (blockEnd b') e) as [Hlt | [Heq | Hgt]]; [|lia|].
  - destruct Hopen as (_ & Hall' & _).
    rewrite Hall' in Hclose' by lia. discriminate.
  - destruct (Hinside b' e Hin' ltac:(lia)) as (_ & Hce). congruence.
Qed.

Lemma changed_lines_partitioned_witness :
  let src := textOf [" x"; "-a"; "+b"; " y"]%string in
  exists b, In b (replaceBlocks src) /\ blockDel b <= 2 < blockEnd b
            /\ forall b', In b' (replaceBlocks src) ->
                 blockDel b' <= 2 < blockEnd b' -> b' = b.
Proof.
  destruct (changed_lines_partitioned (textOf [" x"; "-a"; "+b"; " y"]%string)
              eq_refl eq_refl) as (H & _).
  apply (H 2); [split; [lia | reflexivity] | reflexivity].
Defined.

(** A run that begins with insertions and has a deletion later: the block
    takes the first deletion for [lastDel] and the start of the run for
    [lastIns], so its delete background starts after it ends, and its
    insert background spans the whole run, the deletion included. *)
Theorem insertion_before_deletion
    (differ : bytes -> bytes -> Z * Z -> list Annotation * list Annotation)
    (src : bytes) (anns0 : list Annotation) (m d e : Z) :
  let lines := bytes_Split src in
  let start := index 0 (computeLineStarts lines) in
  let collected := collectAnnotations differ src anns0 in
  (m = 0 \/ isChange (lineAt lines (m - 1)) = false) ->
  0 <= m < d -> d < e < len lines ->
  (forall k, m <= k < d -> classify (lineAt lines k) = MarkInsert) ->
  classify (lineAt lines d) = MarkDelete ->
  (forall k, d < k < e -> isChange (lineAt lines k) = true) ->
  isChange (lineAt lines e) = false ->
  In (mkBlock d m e (lineFirstChar (lineAt lines e))) (replaceBlocks src)
  /\ In (deleteBackground (start d) (start m)) collected
  /\ In (insertBackground (start m) (start e)) collected
  /\ start m < start d < start e
  /\ exists del ins,
       In del collected /\ In ins collected
       /\ (Start del = start d /\ End del = start m
           /\ Left del = spanOpen "gd input-block")
       /\ (Start ins = start m /\ End ins = start e
           /\ Left ins = spanOpen "gi input-block")
       /\ End del < Start del.
Proof.
  intros lines start collected Hmax Hmd Hde Hins Hdel Hrest Hclose.
  assert (Hrun : runState lines m e d m).
  { split; [|split].
    - split; [lia|]. split; [|assumption].
      intros k Hk. destruct (Z_lt_ge_dec k d) as [Hlt | Hge].
      + unfold isChange. now rewrite Hins by lia.
      + destruct (Z.eq_dec k d) as [->|]; [|apply Hrest; lia].
        unfold isChange. now rewrite Hdel.
    - right. split; [lia|]. split; [assumption|].
      intros k Hk. rewrite Hins by lia. discriminate.
    - right. split; [lia|]. split; [apply Hins; lia | intros; lia]. }
  pose proof (detect_complete lines (length lines) _ _ _ _ Hrun ltac:(lia) Hclose
                ltac:(unfold len in Hde; lia)) as Hin.
  assert (Hcb : closeBlock d m e (lineFirstChar (lineAt lines e))
                = mkBlock d m e (lineFirstChar (lineAt lines e))).
  { unfold closeBlock. destruct (Z.eqb_spec d (-1)); [lia|].
    destruct (Z.eqb_spec m (-1)); [lia | reflexivity]. }
  rewrite Hcb in Hin. fold (replaceBlocks src) in Hin.
  split; [exact Hin|].
  destruct (block_backgrounds_collected differ src anns0 _ Hin) as (H1 & H2).
  split; [exact H1|]. split; [exact H2|].
  pose proof (start_next src m d ltac:(lia) ltac:(fold lines; lia)) as S1.
  pose proof (start_next src d e ltac:(lia) ltac:(fold lines; lia)) as S2.
  fold lines in S1, S2. fold start in S1, S2. unfold len in S1, S2.
  split; [lia|].
  destruct (block_backgrounds_fields differ src anns0 _ Hin)
    as (del & ins & more & _ & Hd & Hi & (Sd & Ed & Ld & _) & (Si & Ei & Li & _)).
  cbn [blockDel blockIns blockEnd] in Sd, Ed, Si, Ei.
  fold lines in Sd, Ed, Si, Ei. fold start in Sd, Ed, Si, Ei.
  exists del, ins. repeat split; try assumption. rewrite Sd, Ed. lia.
Qed.

Lemma insertion_before_deletion_witness :
  let src := textOf ["+a"; "-b"; " c"]%string in
  In (deleteBackground 3 0) (collectAnnotations noIntraline src [])
  /\ In (insertBackground 0 6) (collectAnnotations noIntraline src []).
Proof.
  assert (Hins : forall k, 0 <= k < 1 ->
            classify (lineAt (bytes_Split (textOf ["+a"; "-b"; " c"]%string)) k)
            = MarkInsert).
  { intros k Hk. now replace k with 0 by lia. }
  assert (Hrest : forall k, 1 < k < 2 ->
            isChange (lineAt (bytes_Split (textOf ["+a"; "-b"; " c"]%string)) k) = true).
  { intros k Hk. lia. }
  destruct (insertion_before_deletion noIntraline
              (textOf ["+a"; "-b"; " c"]%string) [] 0 1 2
              (or_introl eq_refl) ltac:(lia) (conj eq_refl eq_refl)
              Hins eq_refl Hrest eq_refl) as (_ & H1 & H2 & _).
  exact (conj H1 H2).
Defined.

(** ** [fileDiff.Title] *)

Lemma afterPrefix_app (p s : string) : afterPrefix (p ++ s) p = Some s.
Proof.
  induction p as [|c p IH]; simpl; [reflexivity|].
  now rewrite Ascii.eqb_refl.
Qed.

Lemma TrimPrefix_app (p s : string) : TrimPrefix (p ++ s) p = s.
Proof. unfold TrimPrefix. now rewrite afterPrefix_app. Qed.

(** [Title] returns an error exactly when both names, without the [a/]
    and [b/] of the diff, are [/dev/null]; the title it returns then is
    empty, and without an error it is never built from a name that is
    [/dev/null]. *)
Theorem Title_error_iff (EscapeString : string -> string) (f : FileDiff) :
  let old := TrimPrefix (OrigName f) "a/" in
  let new := TrimPrefix (NewName f) "b/" in
  (snd (Title EscapeString f) <> None <-> old = devNull /\ new = devNull)
  /\ (snd (Title EscapeString f) <> None ->
      Title EscapeString f = (EmptyString, Some (UnexpectedFileDiff f)))
  /\ (snd (Title EscapeString f) = None ->
      Title EscapeString f = (EscapeString new, None) /\ new <> devNull
      \/ Title EscapeString f = (EscapeString (old ++ " -> " ++ new), None)
         /\ old <> devNull /\ new <> devNull /\ old <> new
      \/ Title EscapeString f
         = ("<strikethrough>" ++ EscapeString old ++ "</strikethrough>", None)
         /\ old <> devNull /\ new = devNull)%string.
Proof.
  intros old new. unfold Title. fold old. fold new.
  destruct (String.eqb_spec old devNull) as [Ho | Ho];
    destruct (String.eqb_spec new devNull) as [Hn | Hn];
    destruct (String.eqb_spec old new) as [He | He]; simpl;
    (split; [split; [intro H; try (now destruct H); auto
                    | intros (H1 & H2); try congruence; discriminate]
            | split; [intro H; try (now destruct H); reflexivity
                     | intro H; try discriminate; auto 10]]).
Qed.

(** For the names a diff of git carries, [a/p] and [b/q] with neither [p]
    nor [q] being [/dev/null]: the title of a modified file is the escaped
    name, that of a renamed file the escaped [p -> q]; for an added file
    ([/dev/null] to [b/q]) it is the escaped [q], and for a removed file
    ([a/p] to [/dev/null]) the escaped [p] between the strikethrough
    tags. *)
Theorem Title_of_git_names (EscapeString : string -> string) (p q : string) :
  p <> devNull -> q <> devNull ->
  (Title EscapeString (mkFileDiff ("a/" ++ p) ("b/" ++ p)) = (EscapeString p, None)
   /\ (p <> q ->
       Title EscapeString (mkFileDiff ("a/" ++ p) ("b/" ++ q))
       = (EscapeString (p ++ " -> " ++ q), None))
   /\ Title EscapeString (mkFileDiff devNull ("b/" ++ q)) = (EscapeString q, None)
   /\ Title EscapeString (mkFileDiff ("a/" ++ p) devNull)
      = ("<strikethrough>" ++ EscapeString p ++ "</strikethrough>", None))%string.
Proof.
  intros Hp Hq. unfold Title. cbn [OrigName NewName].
  rewrite !TrimPrefix_app.
  change (TrimPrefix devNull "a/") with devNull.
  change (TrimPrefix devNull "b/") with devNull.
  apply String.eqb_neq in Hp, Hq. rewrite Hp, Hq, !String.eqb_refl. simpl.
  repeat split.
  intro Hpq. apply String.eqb_neq in Hpq. now rewrite Hpq.
Qed.

Lemma Title_of_git_names_witness :
  Title (fun s => s) (mkFileDiff "a/main.go" "b/cmd/main.go")
  = ("main.go -> cmd/main.go"%string, None).
Proof.
  destruct (Title_of_git_names (fun s => s) "main.go" "cmd/main.go")
    as (_ & H & _); [discriminate | discriminate |].
  apply H. discriminate.
Defined.

(** ** [byCreatedAtID] *)

Lemma known_accessors (it : Display.timelineItem) :
  ByCreatedAtID.known it = true ->
  exists c id, Display.CreatedAt it = Display.Returns c
               /\ Display.ID it = Display.Returns id.
Proof.
  destruct it as [[c | e | T]]; unfold ByCreatedAtID.known; simpl; intro H;
    [eexists; eexists; split; reflexivity .. | discriminate].
Qed.

Lemma unknown_accessors (it : Display.timelineItem) :
  ByCreatedAtID.known it = false ->
  Display.CreatedAt it = Display.Panics (Display.unknownItemType (Display.TimelineItem it)).
Proof.
  destruct it as [[c | e | T]]; unfold ByCreatedAtID.known; simpl; intro H;
    [discriminate .. | reflexivity].
Qed.

(** On items of the two known types, [Less] is the lexicographic order of
    the creation time and the ID. *)
Lemma Less_known (s : list Display.timelineItem) (i j : Z)
    (si sj : Display.timelineItem) (ci cj : Z) (idi idj : N) :
  ByCreatedAtID.item s i = Display.Returns si ->
  ByCreatedAtID.item s j = Display.Returns sj ->
  Display.CreatedAt si = Display.Returns ci -> Display.ID si = Display.Returns idi ->
  Display.CreatedAt sj = Display.Returns cj -> Display.ID sj = Display.Returns idj ->
  ByCreatedAtID.Less s i j
  = Display.Returns (if ci =? cj then (idi <? idj)%N else ci <? cj).
Proof.
  intros Hi Hj Hci Hidi Hcj Hidj. unfold ByCreatedAtID.Less.
  rewrite Hi, Hj. simpl. rewrite Hci, Hcj. simpl. rewrite Hidi, Hidj. simpl.
  now destruct (ci =? cj).
Qed.

Ltac order_cases :=
  repeat match goal with
  | H : Display.Returns _ = Display.Returns _ |- _ => injection H as H
  end;
  repeat match goal with
  | H : context [Z.eqb ?a ?b] |- _ => destruct (Z.eqb_spec a b)
  | |- context [Z.eqb ?a ?b] => destruct (Z.eqb_spec a b)
  | H : context [Z.ltb ?a ?b] |- _ => destruct (Z.ltb_spec a b)
  | |- context [Z.ltb ?a ?b] => destruct (Z.ltb_spec a b)
  | H : context [N.ltb ?a ?b] |- _ => destruct (N.ltb_spec a b)
  | |- context [N.ltb ?a ?b] => destruct (N.ltb_spec a b)
  end;
  try reflexivity; try discriminate; try lia; try (f_equal; lia).

(** [Less] is a strict order on items of the known types, as [sort.Sort]
    needs: no item is less than itself, two items are never less than
    each other, [Less] is transitive, and two items neither of which is
    less than the other have the same creation time and the same ID. *)
Theorem Less_strict_order (s : list Display.timelineItem) (i j k : Z)
    (si sj sk : Display.timelineItem) :
  ByCreatedAtID.item s i = Display.Returns si ->
  ByCreatedAtID.item s j = Display.Returns sj ->
  ByCreatedAtID.item s k = Display.Returns sk ->
  ByCreatedAtID.known si = true ->
  ByCreatedAtID.known sj = true ->
  ByCreatedAtID.known sk = true ->
  ByCreatedAtID.Less s i i = Display.Returns false
  /\ (ByCreatedAtID.Less s i j = Display.Returns true ->
      ByCreatedAtID.Less s j i = Display.Returns false)
  /\ (ByCreatedAtID.Less s i j = Display.Returns true ->
      ByCreatedAtID.Less s j k = Display.Returns true ->
      ByCreatedAtID.Less s i k = Display.Returns true)
  /\ (ByCreatedAtID.Less s i j = Display.Returns false ->
      ByCreatedAtID.Less s j i = Display.Returns false ->
      Display.CreatedAt si = Display.CreatedAt sj /\ Display.ID si = Display.ID sj).
Proof.
  intros Hi Hj Hk Ki Kj Kk.
  destruct (known_accessors si Ki) as (ci & idi & Hci & Hidi).
  destruct (known_accessors sj Kj) as (cj & idj & Hcj & Hidj).
  destruct (known_accessors sk Kk) as (ck & idk & Hck & Hidk).
  rewrite (Less_known s i i si si ci ci idi idi) by assumption.
  rewrite (Less_known s i j si sj ci cj idi idj) by assumption.
  rewrite (Less_known s j i sj si cj ci idj idi) by assumption.
  rewrite (Less_known s j k sj sk cj ck idj idk) by assumption.
  rewrite (Less_known s i k si sk ci ck idi idk) by assumption.
  rewrite Hci, Hcj, Hidi, Hidj.
  repeat split; intros; order_cases.
Qed.

Lemma Less_strict_order_witness :
  let s := [Display.mkItem (Display.AnyComment (Display.mkComment 2 10));
            Display.mkItem (Display.AnyEvent (Display.mkEvent 1 10));
            Display.mkItem (Display.AnyComment (Display.mkComment 3 20))] in
  ByCreatedAtID.Less s 1 0 = Display.Returns true
  /\ ByCreatedAtID.Less s 0 1 = Display.Returns false
  /\ ByCreatedAtID.Less s 1 2 = Display.Returns true.
Proof.
  destruct (Less_strict_order
              [Display.mkItem (Display.AnyComment (Display.mkComment 2 10));
               Display.mkItem (Display.AnyEvent (Display.mkEvent 1 10));
               Display.mkItem (Display.AnyComment (Display.mkComment 3 20))]
              1 0 2 _ _ _ eq_refl eq_refl eq_refl eq_refl eq_refl eq_refl)
    as (_ & Hasym & Htrans & _).
  split; [reflexivity|]. split; [apply Hasym; reflexivity|].
  apply Htrans; reflexivity.
Defined.

(** [Less] panics when an index is outside the slice and when one of the
    two items is of an unknown type, with the error of the first unknown
    item ([s[i]] before [s[j]]); for two items inside the slice it panics
    in no other case. *)
Theorem Less_panics (s : list Display.timelineItem) (i j : Z) :
  (~ 0 <= i < ByCreatedAtID.Len s ->
   ByCreatedAtID.Less s i j = Display.Panics "runtime error: index out of range")
  /\ (forall si, ByCreatedAtID.item s i = Display.Returns si ->
        ByCreatedAtID.known si = false ->
        ByCreatedAtID.Less s i j
        = Display.Panics (Display.unknownItemType (Display.TimelineItem si)))
  /\ (forall si sj,
        ByCreatedAtID.item s i = Display.Returns si ->
        ByCreatedAtID.item s j = Display.Returns sj ->
        ByCreatedAtID.known si = true -> ByCreatedAtID.known sj = false ->
        ByCreatedAtID.Less s i j
        = Display.Panics (Display.unknownItemType (Display.TimelineItem sj)))
  /\ (forall si sj,
        ByCreatedAtID.item s i = Display.Returns si ->
        ByCreatedAtID.item s j = Display.Returns sj ->
        ((exists msg, ByCreatedAtID.Less s i j = Display.Panics msg)
         <-> ByCreatedAtID.known si = false \/ ByCreatedAtID.known sj = false)).
Proof.
  assert (H2 : forall si, ByCreatedAtID.item s i = Display.Returns si ->
             ByCreatedAtID.known si = false ->
             ByCreatedAtID.Less s i j
             = Display.Panics (Display.unknownItemType (Display.TimelineItem si))).
  { intros si Hi Ki. unfold ByCreatedAtID.Less. rewrite Hi. simpl.
    now rewrite (unknown_accessors si Ki). }
  assert (H3 : forall si sj,
             ByCreatedAtID.item s i = Display.Returns si ->
             ByCreatedAtID.item s j = Display.Returns sj ->
             ByCreatedAtID.known si = true -> ByCreatedAtID.known sj = false ->
             ByCreatedAtID.Less s i j
             = Display.Panics (Display.unknownItemType (Display.TimelineItem sj))).
  { intros si sj Hi Hj Ki Kj. unfold ByCreatedAtID.Less. rewrite Hi, Hj. simpl.
    destruct (known_accessors si Ki) as (ci & idi & Hci & _). rewrite Hci. simpl.
    now rewrite (unknown_accessors sj Kj). }
  split; [|split; [exact H2 | split; [exact H3|]]].
  - intro Hout. unfold ByCreatedAtID.Less, ByCreatedAtID.item, ByCreatedAtID.Len in *.
    destruct (Z.leb_spec 0 i); destruct (Z.ltb_spec i (len s)); simpl;
      try reflexivity; lia.
  - intros si sj Hi Hj. split.
    + intros (msg & Hp).
      destruct (ByCreatedAtID.known si) eqn:Ki; [|now left].
      destruct (ByCreatedAtID.known sj) eqn:Kj; [|now right].
      destruct (known_accessors si Ki) as (ci & idi & Hci & Hidi).
      destruct (known_accessors sj Kj) as (cj & idj & Hcj & Hidj).
      rewrite (Less_known s i j si sj ci cj idi idj) in Hp by assumption.
      discriminate.
    + intros [Ki | Kj].
      * eexists. exact (H2 si Hi Ki).
      * destruct (ByCreatedAtID.known si) eqn:Ki.
        -- eexists. exact (H3 si sj Hi Hj Ki Kj).
        -- eexists. exact (H2 si Hi Ki).
Qed.

(** ** [commitIndex] *)

Lemma commitIndexFrom_spec (commitID : string) (cs : list Commit) :
  forall i, 0 <= i ->
    let r := commitIndexFrom i cs commitID in
    (r = -1 /\ forall c, In c cs -> SHA c <> commitID)
    \/ (i <= r < i + len cs
        /\ SHA (nth (Z.to_nat (r - i)) cs (mkCommit EmptyString)) = commitID
        /\ forall k, (k < Z.to_nat (r - i))%nat ->
             SHA (nth k cs (mkCommit EmptyString)) <> commitID).
Proof.
  induction cs as [|c cs IH]; intros i Hi; simpl.
  - left. split; [reflexivity | intros c []].
  - destruct (String.eqb_spec (SHA c) commitID) as [E | E].
    + right. replace (Z.to_nat (i - i)) with 0%nat by lia.
      unfold len. simpl length. repeat split; try lia; assumption.
    + destruct (IH (i + 1) ltac:(lia)) as [(Hr & Hnone) | (Hr & Hsha & Hbefore)].
      * left. split; [assumption|]. intros c' [<- | Hin]; auto.
      * right. unfold len in *. simpl length.
        replace (Z.to_nat (commitIndexFrom (i + 1) cs commitID - i))
          with (S (Z.to_nat (commitIndexFrom (i + 1) cs commitID - (i + 1)))) by lia.
        repeat split; try lia; [assumption|].
        intros [|k] Hk; simpl; [assumption | apply Hbefore; lia].
Qed.

(** [commitIndex] returns [-1] exactly when no commit has the SHA;
    otherwise it returns an index inside the slice, that of the first
    commit with the SHA. *)
Theorem commitIndex_first (cs : list Commit) (commitID : string) :
  let r := commitIndex cs commitID in
  (r = -1 <-> forall c, In c cs -> SHA c <> commitID)
  /\ (r <> -1 ->
      0 <= r < len cs
      /\ SHA (index (mkCommit EmptyString) cs r) = commitID
      /\ forall k, 0 <= k < r -> SHA (index (mkCommit EmptyString) cs k) <> commitID).
Proof.
  intro r. unfold r, commitIndex.
  destruct (commitIndexFrom_spec commitID cs 0 ltac:(lia))
    as [(Hr & Hnone) | (Hr & Hsha & Hbefore)]; cbv zeta in *.
  - split; [tauto | congruence].
  - rewrite Z.sub_0_r in *. split.
    + split; [lia|]. intro Hnone. exfalso.
      apply (Hnone (nth (Z.to_nat (commitIndexFrom 0 cs commitID)) cs (mkCommit EmptyString)));
        [|assumption].
      apply nth_In. unfold len in Hr. lia.
    + intros _. unfold index. repeat split; try lia; [assumption|].
      intros k Hk. apply Hbefore. lia.
Qed.

(** ** [Swap] *)

Lemma assign_length (s : list Display.timelineItem) :
  forall i v, length (ByCreatedAtID.assign s i v) = length s.
Proof.
  induction s as [|x s IH]; intros [|i] v; simpl; try reflexivity.
  now rewrite IH.
Qed.

Lemma assign_nth_error (s : list Display.timelineItem) :
  forall i v n,
    nth_error (ByCreatedAtID.assign s i v) n
    = if (n =? i)%nat && (i <? length s)%nat then Some v else nth_error s n.
Proof.
  induction s as [|x s IH]; intros i v n.
  - simpl. replace (i <? 0)%nat with false by (symmetry; apply Nat.ltb_ge; lia).
    now rewrite andb_false_r.
  - destruct i as [|i], n as [|n]; simpl; try reflexivity.
    rewrite IH. reflexivity.
Qed.

Lemma item_nth_error (s : list Display.timelineItem) (i : Z) (x : Display.timelineItem) :
  ByCreatedAtID.item s i = Display.Returns x
  <-> 0 <= i < len s /\ nth_error s (Z.to_nat i) = Some x.
Proof.
  unfold ByCreatedAtID.item, index, len.
  destruct (Z.leb_spec 0 i) as [L1 | L1];
    destruct (Z.ltb_spec i (Z.of_nat (length s))) as [L2 | L2]; simpl;
    try (split; [discriminate | lia]).
  split.
  - intro H. injection H as <-. split; [lia|].
    apply nth_error_nth'. lia.
  - intros (_ & H). f_equal. now apply nth_error_nth.
Qed.

Lemma item_ext (s s' : list Display.timelineItem) (i : Z) :
  length s' = length s ->
  nth_error s' (Z.to_nat i) = nth_error s (Z.to_nat i) ->
  ByCreatedAtID.item s' i = ByCreatedAtID.item s i.
Proof.
  intros Hlen Hnth. unfold ByCreatedAtID.item, index, len. rewrite Hlen.
  destruct ((0 <=? i) && (i <? Z.of_nat (length s))) eqn:E; [|reflexivity].
  f_equal. apply andb_true_iff in E. destruct E as (E1 & E2).
  apply Z.leb_le in E1. apply Z.ltb_lt in E2.
  destruct (nth_error s (Z.to_nat i)) as [x|] eqn:Ex.
  - rewrite (nth_error_nth _ _ _ Ex). now apply nth_error_nth.
  - apply nth_error_None in Ex. lia.
Qed.

(** [Swap] on two indices inside the slice exchanges the two items and
    nothing else: the slice keeps its length and its items (it is a
    permutation of the slice before), and a second [Swap] of the same
    indices restores it; with an index outside the slice it panics. *)
Theorem Swap_exchanges (s : list Display.timelineItem) (i j : Z) :
  (0 <= i < ByCreatedAtID.Len s -> 0 <= j < ByCreatedAtID.Len s ->
   exists s',
     ByCreatedAtID.Swap s i j = Display.Returns s'
     /\ ByCreatedAtID.Len s' = ByCreatedAtID.Len s
     /\ Permutation s s'
     /\ ByCreatedAtID.item s' i = ByCreatedAtID.item s j
     /\ ByCreatedAtID.item s' j = ByCreatedAtID.item s i
     /\ (forall k, k <> i -> k <> j -> ByCreatedAtID.item s' k = ByCreatedAtID.item s k)
     /\ ByCreatedAtID.Swap s' i j = Display.Returns s)
  /\ (~ (0 <= i < ByCreatedAtID.Len s /\ 0 <= j < ByCreatedAtID.Len s) ->
      ByCreatedAtID.Swap s i j = Display.Panics "runtime error: index out of range").
Proof.
  unfold ByCreatedAtID.Len. split.
  - intros Hi Hj.
    destruct (nth_error s (Z.to_nat i)) as [si|] eqn:Esi;
      [|apply nth_error_None in Esi; unfold len in Hi; lia].
    destruct (nth_error s (Z.to_nat j)) as [sj|] eqn:Esj;
      [|apply nth_error_None in Esj; unfold len in Hj; lia].
    pose proof (proj2 (item_nth_error s i si) (conj Hi Esi)) as Ii.
    pose proof (proj2 (item_nth_error s j sj) (conj Hj Esj)) as Ij.
    set (s' := ByCreatedAtID.assign (ByCreatedAtID.assign s (Z.to_nat i) sj) (Z.to_nat j) si).
    assert (Hlen : length s' = length s)
      by (unfold s'; now rewrite !assign_length).
    assert (Hnth : forall n, nth_error s' n
                   = if (n =? Z.to_nat j)%nat then Some si
                     else if (n =? Z.to_nat i)%nat then Some sj
                     else nth_error s n).
    { intro n. unfold s'. rewrite !assign_nth_error, assign_length.
      replace (Z.to_nat j <? length s)%nat with true
        by (symmetry; apply Nat.ltb_lt; unfold len in Hj; lia).
      replace (Z.to_nat i <? length s)%nat with true
        by (symmetry; apply Nat.ltb_lt; unfold len in Hi; lia).
      now rewrite !andb_true_r. }
    exists s'. split; [|split; [|split; [|split; [|split; [|split]]]]].
    + unfold ByCreatedAtID.Swap. rewrite Ii, Ij. reflexivity.
    + unfold len. now rewrite Hlen.
    + apply Permutation_nth_error. split; [now rewrite Hlen|].
      exists (fun n => if (n =? Z.to_nat j)%nat then Z.to_nat i
                       else if (n =? Z.to_nat i)%nat then Z.to_nat j else n).
      split.
      * intros x y.
        destruct (Nat.eqb_spec x (Z.to_nat j)), (Nat.eqb_spec y (Z.to_nat j)),
                 (Nat.eqb_spec x (Z.to_nat i)), (Nat.eqb_spec y (Z.to_nat i)); lia.
      * intro n. rewrite Hnth.
        destruct (Nat.eqb_spec n (Z.to_nat j)); [now rewrite Esi|].
        destruct (Nat.eqb_spec n (Z.to_nat i)); [now rewrite Esj | reflexivity].
    + rewrite Ij. apply item_nth_error. split; [unfold len; rewrite Hlen; exact Hi|].
      rewrite Hnth. destruct (Nat.eqb_spec (Z.to_nat i) (Z.to_nat j)) as [E | E].
      * rewrite E in Esi. congruence.
      * now rewrite Nat.eqb_refl.
    + rewrite Ii. apply item_nth_error. split; [unfold len; rewrite Hlen; exact Hj|].
      rewrite Hnth. now rewrite Nat.eqb_refl.
    + intros k Hki Hkj.
      destruct (Z_lt_ge_dec k 0) as [Hneg | Hpos].
      * unfold ByCreatedAtID.item.
        destruct (Z.leb_spec 0 k); [lia | reflexivity].
      * apply item_ext; [assumption|]. rewrite Hnth.
        destruct (Nat.eqb_spec (Z.to_nat k) (Z.to_nat j)); [lia|].
        destruct (Nat.eqb_spec (Z.to_nat k) (Z.to_nat i)); [lia | reflexivity].
    + assert (Ii' : ByCreatedAtID.item s' i = Display.Returns sj).
      { apply item_nth_error. split; [unfold len; rewrite Hlen; exact Hi|].
        rewrite Hnth. destruct (Nat.eqb_spec (Z.to_nat i) (Z.to_nat j)) as [E | E].
        - rewrite E in Esi. congruence.
        - now rewrite Nat.eqb_refl. }
      assert (Ij' : ByCreatedAtID.item s' j = Display.Returns si).
      { apply item_nth_error. split; [unfold len; rewrite Hlen; exact Hj|].
        rewrite Hnth. now rewrite Nat.eqb_refl. }
      unfold ByCreatedAtID.Swap. rewrite Ii', Ij'. simpl. f_equal.
      apply nth_error_ext. intro n.
      rewrite !assign_nth_error, assign_length, Hlen, Hnth.
      replace (Z.to_nat j <? length s)%nat with true
        by (symmetry; apply Nat.ltb_lt; unfold len in Hj; lia).
      replace (Z.to_nat i <? length s)%nat with true
        by (symmetry; apply Nat.ltb_lt; unfold len in Hi; lia).
      rewrite !andb_true_r.
      destruct (Nat.eqb_spec n (Z.to_nat j)) as [-> | E]; [now rewrite Esj|].
      destruct (Nat.eqb_spec n (Z.to_nat i)) as [-> | E']; [now rewrite Esi | reflexivity].
  - intro Hout. unfold ByCreatedAtID.Swap, ByCreatedAtID.item.
    destruct (Z.leb_spec 0 j); destruct (Z.ltb_spec j (len s)); simpl; try reflexivity.
    destruct (Z.leb_spec 0 i); destruct (Z.ltb_spec i (len s)); simpl; try reflexivity.
    lia.
Qed.

(** ** [stripPrefix] *)

Lemma string_length_app (a b : string) :
  String.length (a ++ b) = (String.length a + String.length b)%nat.
Proof. induction a as [|c a IH]; simpl; [reflexivity | now rewrite IH]. Qed.

Lemma substring_whole (s : string) : substring 0 (String.length s) s = s.
Proof. induction s as [|c s IH]; simpl; [reflexivity | now rewrite IH]. Qed.

Lemma substring_after (pre rest : string) (m : nat) :
  substring (String.length pre) m (pre ++ rest) = substring 0 m rest.
Proof. induction pre as [|c pre IH]; simpl; [reflexivity | apply IH]. Qed.

(** [stripPrefix] gives the request with the path without its first
    [prefixLen] bytes, and with the path ["/"] when nothing is left, the
    other fields being those of [r]; the path it gives is never empty; and
    it panics exactly when [prefixLen] is negative or longer than the
    path. *)
Theorem stripPrefix_path (U Q : Type) :
  (forall (pre rest : string) (u : U) (q : Q),
     stripPrefix (mkRequest (mkURL (pre ++ rest) u) q) (Z.of_nat (String.length pre))
     = Display.Returns
         (mkRequest
            (mkURL (if String.eqb rest EmptyString then "/"%string else rest) u) q))
  /\ (forall (r r2 : http_Request U Q) n,
        stripPrefix r n = Display.Returns r2 ->
        Path (URL r2) <> EmptyString
        /\ otherURLFields (URL r2) = otherURLFields (URL r)
        /\ otherRequestFields r2 = otherRequestFields r
        /\ 0 <= n <= Z.of_nat (String.length (Path (URL r))))
  /\ (forall (r : http_Request U Q) n,
        (exists msg, stripPrefix r n = Display.Panics msg)
        <-> n < 0 \/ Z.of_nat (String.length (Path (URL r))) < n).
Proof.
  split; [|split].
  - intros pre rest u q. unfold stripPrefix. cbn [URL Path otherURLFields otherRequestFields].
    destruct (Z.leb_spec 0 (Z.of_nat (String.length pre))); [|lia].
    destruct (Z.leb_spec (Z.of_nat (String.length pre))
                (Z.of_nat (String.length (pre ++ rest)))) as [L | L];
      [|rewrite string_length_app in L; lia].
    cbn [andb]. rewrite Nat2Z.id, string_length_app.
    replace (String.length pre + String.length rest - String.length pre)%nat
      with (String.length rest) by lia.
    now rewrite substring_after, substring_whole.
  - intros r r2 n. unfold stripPrefix.
    destruct (Z.leb_spec 0 n);
      destruct (Z.leb_spec n (Z.of_nat (String.length (Path (URL r)))));
      cbn [andb]; try discriminate.
    intro Hp. injection Hp as <-. cbn [URL Path otherURLFields otherRequestFields].
    repeat split; try lia.
    destruct (String.eqb_spec
                (substring (Z.to_nat n)
                   (String.length (Path (URL r)) - Z.to_nat n) (Path (URL r)))
                EmptyString); [discriminate | assumption].
  - intros r n. unfold stripPrefix.
    destruct (Z.leb_spec 0 n);
      destruct (Z.leb_spec n (Z.of_nat (String.length (Path (URL r)))));
      cbn [andb]; split; try (intros (msg & Hm); discriminate); try lia;
      try (intros _; eexists; reflexivity).
Qed.
